(** * XangoER power-train digital twin: the induction-motor simulator

    A shallow embedding of class [Motor] of [digitaltwin_powertrain.py]
    (constructor, initial conditions, excitation, dq0 transforms, flux
    integration, torque, thermal update, sampling loop) and the properties
    of its specification.

    Numbers.  The Python attributes are floats; the embedding reads them as
    real numbers ([R]), so [+ - * /], [np.sqrt], [np.cos] and [np.pi] are the
    real operations.  Division by zero is only modelled where Python raises
    ([ZeroDivisionError] in the constructor, whose operands are Python
    numbers); the numpy divisions of the stepping loop return inf/nan there,
    which [R] has not, so the statement that would otherwise rest on
    [0 / 0 = 0] (the zero-input rest) carries the divisors' non-nullity as
    hypotheses.  Module [Binary64] re-runs the two coordinate transforms and
    the sampling clock on IEEE doubles, bit for bit. *)

From Stdlib Require Import Reals Lra Lia List ZArith Bool Sorted.
From Stdlib Require Floats.PrimFloat.
Import ListNotations.

Local Open Scope R_scope.

(** ** Errors of the constructor *)

Inductive error : Set := ZeroDivisionError.

Definition result (A : Type) : Type := (error + A)%type.

Definition ret {A : Type} (a : A) : result A := inr a.

Definition bind {A B : Type} (c : result A) (k : A -> result B) : result B :=
  match c with
  | inl e => inl e
  | inr a => k a
  end.

Notation "x <- c ;; k" := (bind c (fun x => k))
  (at level 61, c at next level, right associativity).

(** Python's [/] on two Python numbers. *)
Definition py_div (x y : R) : result R :=
  if Req_dec_T y 0 then inl ZeroDivisionError else ret (x / y).

(** [f] applied [n] times, the state after [n] passes of a loop body. *)
Fixpoint iter {A : Type} (f : A -> A) (n : nat) (a : A) : A :=
  match n with
  | O => a
  | S k => f (iter f k a)
  end.

Module Motor.

(** ** The attributes of a [Motor] instance *)

(** Set by [__init__] and never assigned again. *)
Record Params : Type := {
  pi23 : R; rq23 : R; rq3 : R;
  rs : R; rr : R; ls : R; lr : R; msr : R; lso : R;
  f_onda_p : R; f_onda_m : R;
  q1 : R; q2 : R; q3 : R;
  jm : R; kf : R; cte_tempo_mec : R;
  idt : R; p : R; amsr : R; valor_mu : R;
  h : R; tmax : R; hp : R
}.

(** Set by [reset_initial_conditions]. *)
Record State : Type := {
  cl : R; wm : R; t : R; tp : R; j : R; ce : R;
  ws : R; Vsm : R; Vs : R; tete : R;
  fsd : R; fsq : R; frd : R; frq : R;
  isd : R; isq : R; ird : R; irq : R; iso : R;
  rg : R; temp : R; m : R; C : R
}.

(** The output lists, in the order [__init__] creates them; [append] adds at
    the end. *)
Record Trace : Type := {
  tempo : list R;
  corrented : list R; correnteq : list R;
  corrente1 : list R; corrente2 : list R; corrente3 : list R;
  tensao1 : list R; tensao2 : list R; tensao3 : list R;
  tensaosd : list R; tensaosq : list R;
  fluxord : list R; fluxorq : list R;
  fluxos1 : list R; fluxos2 : list R; fluxos3 : list R;
  fluxosd : list R; fluxosq : list R; fluxos : list R;
  conjugado : list R; velocidade : list R; frequencia : list R;
  conjcarga : list R; correnteo : list R;
  torque_mecanico : list R; temperatura : list R
}.

Record Motor : Type := {
  par :> Params;
  st :> State;
  tr :> Trace
}.

(** *** Attribute assignment [self.x = v] *)

Section Assign.
Variable v : R.
Variable self : Motor.

Definition with_state (s : State) : Motor :=
  {| par := par self; st := s; tr := tr self |}.

Definition set_cl : Motor := with_state
  {| cl := v; wm := wm self; t := t self; tp := tp self; j := j self;
     ce := ce self; ws := ws self; Vsm := Vsm self; Vs := Vs self;
     tete := tete self; fsd := fsd self; fsq := fsq self; frd := frd self;
     frq := frq self; isd := isd self; isq := isq self; ird := ird self;
     irq := irq self; iso := iso self; rg := rg self; temp := temp self;
     m := m self; C := C self |}.

Definition set_wm : Motor := with_state
  {| cl := cl self; wm := v; t := t self; tp := tp self; j := j self;
     ce := ce self; ws := ws self; Vsm := Vsm self; Vs := Vs self;
     tete := tete self; fsd := fsd self; fsq := fsq self; frd := frd self;
     frq := frq self; isd := isd self; isq := isq self; ird := ird self;
     irq := irq self; iso := iso self; rg := rg self; temp := temp self;
     m := m self; C := C self |}.

Definition set_t : Motor := with_state
  {| cl := cl self; wm := wm self; t := v; tp := tp self; j := j self;
     ce := ce self; ws := ws self; Vsm := Vsm self; Vs := Vs self;
     tete := tete self; fsd := fsd self; fsq := fsq self; frd := frd self;
     frq := frq self; isd := isd self; isq := isq self; ird := ird self;
     irq := irq self; iso := iso self; rg := rg self; temp := temp self;
     m := m self; C := C self |}.

Definition set_tp : Motor := with_state
  {| cl := cl self; wm := wm self; t := t self; tp := v; j := j self;
     ce := ce self; ws := ws self; Vsm := Vsm self; Vs := Vs self;
     tete := tete self; fsd := fsd self; fsq := fsq self; frd := frd self;
     frq := frq self; isd := isd self; isq := isq self; ird := ird self;
     irq := irq self; iso := iso self; rg := rg self; temp := temp self;
     m := m self; C := C self |}.

Definition set_ce : Motor := with_state
  {| cl := cl self; wm := wm self; t := t self; tp := tp self; j := j self;
     ce := v; ws := ws self; Vsm := Vsm self; Vs := Vs self;
     tete := tete self; fsd := fsd self; fsq := fsq self; frd := frd self;
     frq := frq self; isd := isd self; isq := isq self; ird := ird self;
     irq := irq self; iso := iso self; rg := rg self; temp := temp self;
     m := m self; C := C self |}.

Definition set_Vs : Motor := with_state
  {| cl := cl self; wm := wm self; t := t self; tp := tp self; j := j self;
     ce := ce self; ws := ws self; Vsm := Vsm self; Vs := v;
     tete := tete self; fsd := fsd self; fsq := fsq self; frd := frd self;
     frq := frq self; isd := isd self; isq := isq self; ird := ird self;
     irq := irq self; iso := iso self; rg := rg self; temp := temp self;
     m := m self; C := C self |}.

Definition set_tete : Motor := with_state
  {| cl := cl self; wm := wm self; t := t self; tp := tp self; j := j self;
     ce := ce self; ws := ws self; Vsm := Vsm self; Vs := Vs self;
     tete := v; fsd := fsd self; fsq := fsq self; frd := frd self;
     frq := frq self; isd := isd self; isq := isq self; ird := ird self;
     irq := irq self; iso := iso self; rg := rg self; temp := temp self;
     m := m self; C := C self |}.

Definition set_fsd : Motor := with_state
  {| cl := cl self; wm := wm self; t := t self; tp := tp self; j := j self;
     ce := ce self; ws := ws self; Vsm := Vsm self; Vs := Vs self;
     tete := tete self; fsd := v; fsq := fsq self; frd := frd self;
     frq := frq self; isd := isd self; isq := isq self; ird := ird self;
     irq := irq self; iso := iso self; rg := rg self; temp := temp self;
     m := m self; C := C self |}.

Definition set_fsq : Motor := with_state
  {| cl := cl self; wm := wm self; t := t self; tp := tp self; j := j self;
     ce := ce self; ws := ws self; Vsm := Vsm self; Vs := Vs self;
     tete := tete self; fsd := fsd self; fsq := v; frd := frd self;
     frq := frq self; isd := isd self; isq := isq self; ird := ird self;
     irq := irq self; iso := iso self; rg := rg self; temp := temp self;
     m := m self; C := C self |}.

Definition set_frd : Motor := with_state
  {| cl := cl self; wm := wm self; t := t self; tp := tp self; j := j self;
     ce := ce self; ws := ws self; Vsm := Vsm self; Vs := Vs self;
     tete := tete self; fsd := fsd self; fsq := fsq self; frd := v;
     frq := frq self; isd := isd self; isq := isq self; ird := ird self;
     irq := irq self; iso := iso self; rg := rg self; temp := temp self;
     m := m self; C := C self |}.

Definition set_frq : Motor := with_state
  {| cl := cl self; wm := wm self; t := t self; tp := tp self; j := j self;
     ce := ce self; ws := ws self; Vsm := Vsm self; Vs := Vs self;
     tete := tete self; fsd := fsd self; fsq := fsq self; frd := frd self;
     frq := v; isd := isd self; isq := isq self; ird := ird self;
     irq := irq self; iso := iso self; rg := rg self; temp := temp self;
     m := m self; C := C self |}.

Definition set_isd : Motor := with_state
  {| cl := cl self; wm := wm self; t := t self; tp := tp self; j := j self;
     ce := ce self; ws := ws self; Vsm := Vsm self; Vs := Vs self;
     tete := tete self; fsd := fsd self; fsq := fsq self; frd := frd self;
     frq := frq self; isd := v; isq := isq self; ird := ird self;
     irq := irq self; iso := iso self; rg := rg self; temp := temp self;
     m := m self; C := C self |}.

Definition set_isq : Motor := with_state
  {| cl := cl self; wm := wm self; t := t self; tp := tp self; j := j self;
     ce := ce self; ws := ws self; Vsm := Vsm self; Vs := Vs self;
     tete := tete self; fsd := fsd self; fsq := fsq self; frd := frd self;
     frq := frq self; isd := isd self; isq := v; ird := ird self;
     irq := irq self; iso := iso self; rg := rg self; temp := temp self;
     m := m self; C := C self |}.

Definition set_ird : Motor := with_state
  {| cl := cl self; wm := wm self; t := t self; tp := tp self; j := j self;
     ce := ce self; ws := ws self; Vsm := Vsm self; Vs := Vs self;
     tete := tete self; fsd := fsd self; fsq := fsq self; frd := frd self;
     frq := frq self; isd := isd self; isq := isq self; ird := v;
     irq := irq self; iso := iso self; rg := rg self; temp := temp self;
     m := m self; C := C self |}.

Definition set_irq : Motor := with_state
  {| cl := cl self; wm := wm self; t := t self; tp := tp self; j := j self;
     ce := ce self; ws := ws self; Vsm := Vsm self; Vs := Vs self;
     tete := tete self; fsd := fsd self; fsq := fsq self; frd := frd self;
     frq := frq self; isd := isd self; isq := isq self; ird := ird self;
     irq := v; iso := iso self; rg := rg self; temp := temp self;
     m := m self; C := C self |}.

Definition set_iso : Motor := with_state
  {| cl := cl self; wm := wm self; t := t self; tp := tp self; j := j self;
     ce := ce self; ws := ws self; Vsm := Vsm self; Vs := Vs self;
     tete := tete self; fsd := fsd self; fsq := fsq self; frd := frd self;
     frq := frq self; isd := isd self; isq := isq self; ird := ird self;
     irq := irq self; iso := v; rg := rg self; temp := temp self;
     m := m self; C := C self |}.

Definition set_temp : Motor := with_state
  {| cl := cl self; wm := wm self; t := t self; tp := tp self; j := j self;
     ce := ce self; ws := ws self; Vsm := Vsm self; Vs := Vs self;
     tete := tete self; fsd := fsd self; fsq := fsq self; frd := frd self;
     frq := frq self; isd := isd self; isq := isq self; ird := ird self;
     irq := irq self; iso := iso self; rg := rg self; temp := v;
     m := m self; C := C self |}.

(** [self.tmax = v], as the doctest of [load_torque] does. *)
Definition set_tmax : Motor :=
  {| par :=
       {| pi23 := pi23 self; rq23 := rq23 self; rq3 := rq3 self;
          rs := rs self; rr := rr self; ls := ls self; lr := lr self;
          msr := msr self; lso := lso self;
          f_onda_p := f_onda_p self; f_onda_m := f_onda_m self;
          q1 := q1 self; q2 := q2 self; q3 := q3 self;
          jm := jm self; kf := kf self;
          cte_tempo_mec := cte_tempo_mec self;
          idt := idt self; p := p self; amsr := amsr self;
          valor_mu := valor_mu self;
          h := h self; tmax := v; hp := hp self |};
     st := st self; tr := tr self |}.
End Assign.

(** ** [reset_initial_conditions] *)

Definition reset_initial_conditions (self : Motor) : Motor :=
  with_state self
    {| cl := 0; wm := 0; t := 0; tp := 0; j := 0; ce := 0;
       ws := 377; Vsm := 220 * sqrt 2; Vs := 220 * sqrt 2; tete := 0;
       fsd := 0; fsq := 0; frd := 0; frq := 0;
       isd := 0; isq := 0; ird := 0; irq := 0; iso := 0;
       rg := 0; temp := 25; m := 65 / 1.5; C := 0.385 |}.

(** ** [__init__] *)

Definition empty_trace : Trace :=
  {| tempo := []; corrented := []; correnteq := [];
     corrente1 := []; corrente2 := []; corrente3 := [];
     tensao1 := []; tensao2 := []; tensao3 := [];
     tensaosd := []; tensaosq := [];
     fluxord := []; fluxorq := [];
     fluxos1 := []; fluxos2 := []; fluxos3 := [];
     fluxosd := []; fluxosq := []; fluxos := [];
     conjugado := []; velocidade := []; frequencia := [];
     conjcarga := []; correnteo := [];
     torque_mecanico := []; temperatura := [] |}.

(** The state record before [reset_initial_conditions] has assigned it:
    every attribute of it is overwritten there. *)
Definition unset_state : State :=
  {| cl := 0; wm := 0; t := 0; tp := 0; j := 0; ce := 0;
     ws := 0; Vsm := 0; Vs := 0; tete := 0;
     fsd := 0; fsq := 0; frd := 0; frq := 0;
     isd := 0; isq := 0; ird := 0; irq := 0; iso := 0;
     rg := 0; temp := 0; m := 0; C := 0 |}.

(** The two quotients of Python numbers raise on a zero divisor; the
    sampling step [hp] is clamped to the time step [h]. *)
Definition __init__ (rs rr ls lr mrs jm kf q1 q2 q3 valor_mu : R)
  : result Motor :=
  let pi23 := 2 * PI / 3 in
  let rq23 := sqrt (2 / 3) in
  let rq3 := sqrt 3 in
  let lso := 0.1 * ls in
  cte_tempo_mec <- py_div jm kf ;;
  idt <- py_div 1 (ls * lr - mrs * mrs) ;;
  let p := 2 in
  let amsr := p * idt * mrs in
  let h := 1e-5 in
  let tmax := 1 in
  let hp := tmax / 2000 in
  let hp := if Rlt_dec hp h then h else hp in
  ret (reset_initial_conditions
         {| par :=
              {| pi23 := pi23; rq23 := rq23; rq3 := rq3;
                 rs := rs; rr := rr; ls := ls; lr := lr; msr := mrs;
                 lso := lso; f_onda_p := 50; f_onda_m := 5;
                 q1 := q1; q2 := q2; q3 := q3;
                 jm := jm; kf := kf; cte_tempo_mec := cte_tempo_mec;
                 idt := idt; p := p; amsr := amsr; valor_mu := valor_mu;
                 h := h; tmax := tmax; hp := hp |};
            st := unset_state;
            tr := empty_trace |}).

(** ** Excitation *)

(** [source_voltage]: the electrical angle advances by [h * ws] and is
    wrapped once; the three phase voltages are returned. *)
Definition source_voltage (self : Motor) : (R * R * R) * Motor :=
  let self := set_tete (tete self + h self * ws self) self in
  let self :=
    if Rge_dec (tete self) (2 * PI)
    then set_tete (tete self - 2 * PI) self
    else self in
  let vs1 := Vs self * cos (tete self) in
  let vs2 := Vs self * cos (tete self - pi23 self) in
  let vs3 := Vs self * cos (tete self + pi23 self) in
  ((vs1, vs2, vs3), self).

(** [load_torque]: one guarded assignment, no [else]. *)
Definition load_torque (self : Motor) : Motor :=
  if Rge_dec (t self) (tmax self / 2) then set_cl 40 self else self.

(** ** Coordinate transforms *)

Definition direct_voltage_and_quadrature (self : Motor) (vs1 vs2 vs3 : R)
  : R * R * R :=
  let vsd := rq23 self * (vs1 - vs2 / 2 - vs3 / 2) in
  let vsq := rq23 self * (vs2 * rq3 self / 2 - vs3 * rq3 self / 2) in
  let vso := (vs1 + vs2 + vs3) / rq3 self in
  (vsd, vsq, vso).

Definition currents_and_fluxes_phases (self : Motor) (fso : R)
  : R * R * R * R * R * R :=
  let is1 := rq23 self * isd self + iso self / rq3 self in
  let is2 := rq23 self * (- isd self / 2 + rq3 self * isq self / 2)
             + iso self / rq3 self in
  let is3 := rq23 self * (- isd self / 2 - rq3 self * isq self / 2)
             + iso self / rq3 self in
  let fs1 := rq23 self * fsd self + fso / rq3 self in
  let fs2 := rq23 self * (- fsd self / 2 + rq3 self * fsq self / 2)
             + fso / rq3 self in
  let fs3 := rq23 self * (- fsd self / 2 - rq3 self * fsq self / 2)
             + fso / rq3 self in
  (is1, is2, is3, fs1, fs2, fs3).

(** ** Electrical state *)

Definition calculate_derivatives (self : Motor) (vsd vsq vso : R)
  : R * R * R * R * R :=
  let dervfsd := vsd - rs self * isd self in
  let dervfsq := vsq - rs self * isq self in
  let dervfrd := - rr self * ird self - frq self * wm self in
  let dervfrq := - rr self * irq self + frd self * wm self in
  let deriso := (vso - rs self * iso self) / lso self in
  (dervfsd, dervfsq, dervfrd, dervfrq, deriso).

Definition update_fluxes_and_currents
    (self : Motor) (dervfsd dervfsq dervfrd dervfrq deriso : R)
  : R * Motor :=
  let self := set_fsd (fsd self + dervfsd * h self) self in
  let self := set_fsq (fsq self + dervfsq * h self) self in
  let self := set_frd (frd self + dervfrd * h self) self in
  let self := set_frq (frq self + dervfrq * h self) self in
  let self := set_iso (iso self + deriso * h self) self in
  let fso := lso self * iso self in
  (fso, self).

Definition calculate_electromagnetic_torque (self : Motor) : R * Motor :=
  let self :=
    set_ce (amsr self * (fsq self * frd self - fsd self * frq self)) self in
  let self :=
    set_isd (idt self * (lr self * fsd self - msr self * frd self)) self in
  let self :=
    set_isq (idt self * (lr self * fsq self - msr self * frq self)) self in
  let self :=
    set_ird (idt self * (- msr self * fsd self + ls self * frd self)) self in
  let self :=
    set_irq (idt self * (- msr self * fsq self + ls self * frq self)) self in
  (ce self, self).

(** ** Mechanical state *)

Definition mechanical_speed (self : Motor) : R :=
  wm self + (ce self - cl self - wm self * kf self) * h self / jm self.

Definition mechanical_torque (self : Motor) : R :=
  ce self - cl self.

(** ** Thermal state *)

Definition fst3 (x : R * R * R * R * R * R) : R :=
  let '(a, _, _, _, _, _) := x in a.
Definition snd3 (x : R * R * R * R * R * R) : R :=
  let '(_, b, _, _, _, _) := x in b.
Definition thd3 (x : R * R * R * R * R * R) : R :=
  let '(_, _, c, _, _, _) := x in c.

(** [calcular_temperatura]: the parameter [h] is not read, the attribute
    [self.h] is; the phase currents come from three calls of
    [currents_and_fluxes_phases(1)], indexed [0], [1] and [2]. *)
Definition calcular_temperatura (self : Motor) (h_arg : R) : R * Motor :=
  let corrente_eficaz :=
    sqrt (fst3 (currents_and_fluxes_phases self 1) ^ 2
          + snd3 (currents_and_fluxes_phases self 1) ^ 2
          + thd3 (currents_and_fluxes_phases self 1) ^ 2) in
  let potencia_perdida := rs self * corrente_eficaz ^ 2 in
  let dT := (potencia_perdida * h self) / (m self * C self) in
  let self := set_temp (temp self + dT) self in
  (temp self, self).

(** ** Output trace *)

Definition outputs (self : Motor)
    (is1 is2 is3 fs1 fs2 fs3 fso cm vso vsd vsq : R) : Motor :=
  {| par := par self; st := st self;
     tr :=
       {| tempo := tempo self ++ [t self];
          corrented := corrented self ++ [isd self];
          correnteq := correnteq self ++ [isq self];
          corrente1 := corrente1 self ++ [is1];
          corrente2 := corrente2 self ++ [is2];
          corrente3 := corrente3 self ++ [is3];
          tensao1 := tensao1 self ++ [vso];
          tensao2 := tensao2 self ++ [vsd];
          tensao3 := tensao3 self ++ [vsq];
          tensaosd := tensaosd self;
          tensaosq := tensaosq self;
          fluxord := fluxord self ++ [frd self];
          fluxorq := fluxorq self ++ [frq self];
          fluxos1 := fluxos1 self ++ [fs1];
          fluxos2 := fluxos2 self ++ [fs2];
          fluxos3 := fluxos3 self ++ [fs3];
          fluxosd := fluxosd self ++ [fsd self];
          fluxosq := fluxosq self ++ [fsq self];
          fluxos := fluxos self ++ [fso];
          conjugado := conjugado self ++ [ce self];
          velocidade := velocidade self ++ [wm self];
          frequencia := frequencia self ++ [ws self];
          conjcarga := conjcarga self ++ [cl self];
          correnteo := correnteo self ++ [iso self];
          torque_mecanico := torque_mecanico self ++ [cm];
          temperatura := temperatura self ++ [temp self] |} |}.

(** ** [simulate] *)

(** The body of the [while] loop. *)
Definition step (self : Motor) : Motor :=
  let self := set_t (t self + h self) self in
  let '((vs1, vs2, vs3), self) := source_voltage self in
  let self := load_torque self in
  let '(vsd, vsq, vso) := direct_voltage_and_quadrature self vs1 vs2 vs3 in
  let '(dervfsd, dervfsq, dervfrd, dervfrq, deriso) :=
    calculate_derivatives self vsd vsq vso in
  let '(fso, self) :=
    update_fluxes_and_currents self dervfsd dervfsq dervfrd dervfrq deriso in
  let '(_, self) := calculate_electromagnetic_torque self in
  let '(is1, is2, is3, fs1, fs2, fs3) :=
    currents_and_fluxes_phases self fso in
  let self := set_wm (mechanical_speed self) self in
  let cm := mechanical_torque self in
  let '(temp', self) := calcular_temperatura self (h self) in
  let self := set_temp temp' self in
  if Rge_dec (t self) (tp self) then
    let self := set_tp (tp self + hp self) self in
    outputs self is1 is2 is3 fs1 fs2 fs3 fso cm vso vsd vsq
  else self.

(** [while self.t < self.tmax: body], with the number of passes bounded by
    [fuel]; [None] when the fuel runs out before the guard fails. *)
Fixpoint simulate (fuel : nat) (self : Motor) : option Motor :=
  if Rlt_dec (t self) (tmax self) then
    match fuel with
    | O => None
    | S fuel' => simulate fuel' (step self)
    end
  else Some self.

(** The instance of the examples of the source:
    [Motor(0.39, 1.41, 0.094, 0.094, 0.091, 0.04, 0.01, q1=1, q2=1, q3=0,
    valor_mu=1)], attribute by attribute. *)
Definition reference : Motor :=
  reset_initial_conditions
    {| par :=
         {| pi23 := 2 * PI / 3; rq23 := sqrt (2 / 3); rq3 := sqrt 3;
            rs := 0.39; rr := 1.41; ls := 0.094; lr := 0.094; msr := 0.091;
            lso := 0.1 * 0.094; f_onda_p := 50; f_onda_m := 5;
            q1 := 1; q2 := 1; q3 := 0;
            jm := 0.04; kf := 0.01; cte_tempo_mec := 0.04 / 0.01;
            idt := 1 / (0.094 * 0.094 - 0.091 * 0.091); p := 2;
            amsr := 2 * (1 / (0.094 * 0.094 - 0.091 * 0.091)) * 0.091;
            valor_mu := 1;
            h := 1e-5; tmax := 1; hp := 1 / 2000 |};
       st := unset_state;
       tr := empty_trace |}.

End Motor.

(** ** The same arithmetic on IEEE 754 binary64

    numpy and Python evaluate the source on doubles, rounding to nearest
    even after every operation; [PrimFloat] is that arithmetic.  Only the
    parts whose floating-point behaviour the specification speaks of are
    repeated here: the two coordinate transforms and the clock of
    [simulate] ([t], [tp] and the list [tempo], which nothing else in the
    loop body writes). *)

Module Binary64.
Import PrimFloat.
Local Open Scope float_scope.
#[local] Set Warnings "-inexact-float".

Definition rq23 : float := sqrt (2 / 3).
Definition rq3 : float := sqrt 3.

Definition direct_voltage_and_quadrature (vs1 vs2 vs3 : float)
  : float * float * float :=
  let vsd := rq23 * (vs1 - vs2 / 2 - vs3 / 2) in
  let vsq := rq23 * (vs2 * rq3 / 2 - vs3 * rq3 / 2) in
  let vso := (vs1 + vs2 + vs3) / rq3 in
  (vsd, vsq, vso).

(** The three phase currents of [currents_and_fluxes_phases] as a function
    of the attributes [isd], [isq], [iso] (the three fluxes are the same
    formulas at [fsd], [fsq], [fso]). *)
Definition currents_phases (isd isq iso : float) : float * float * float :=
  let is1 := rq23 * isd + iso / rq3 in
  let is2 := rq23 * (- isd / 2 + rq3 * isq / 2) + iso / rq3 in
  let is3 := rq23 * (- isd / 2 - rq3 * isq / 2) + iso / rq3 in
  (is1, is2, is3).

Definition round_trip (a b c : float) : float * float * float :=
  let '(xd, xq, xo) := direct_voltage_and_quadrature a b c in
  currents_phases xd xq xo.

(** Largest absolute deviation of the round trip from its input. *)
Definition fmax (x y : float) : float := if ltb x y then y else x.

Definition round_trip_error (a b c : float) : float :=
  let '(a', b', c') := round_trip a b c in
  fmax (abs (a' - a)) (fmax (abs (b' - b)) (abs (c' - c))).

(** *** The clock of [simulate] *)

Record Clock : Set := { t : float; tp : float; tempo : list float }.

Definition h : float := 1e-5.
Definition tmax : float := 1.
Definition hp : float :=
  let hp := tmax / 2000 in if ltb hp h then h else hp.

Definition reset : Clock := {| t := 0; tp := 0; tempo := [] |}.

Definition step (self : Clock) : Clock :=
  let t' := t self + h in
  if leb (tp self) t' then
    {| t := t'; tp := tp self + hp; tempo := tempo self ++ [t'] |}
  else {| t := t'; tp := tp self; tempo := tempo self |}.

Fixpoint simulate (fuel : nat) (self : Clock) : option Clock :=
  if ltb (t self) tmax then
    match fuel with
    | O => None
    | S fuel' => simulate fuel' (step self)
    end
  else Some self.

(** Checks on a recorded time list. *)
Fixpoint increasing (l : list float) : bool :=
  match l with
  | a :: (b :: _) as r => ltb a b && increasing r
  | _ => true
  end.

Fixpoint spaced (l : list float) : bool :=
  match l with
  | a :: (b :: _) as r => leb (abs (b - a - hp)) h && spaced r
  | _ => true
  end.

End Binary64.

Import Motor.

(** * Specification-level definitions *)

(** Lines 454-455 of [simulate]: the derivatives at the present state and
    the applied dq0 voltage, then the flux update. *)
Definition electrical_step (self : Motor) (vsd vsq vso : R) : R * Motor :=
  let '(dervfsd, dervfsq, dervfrd, dervfrq, deriso) :=
    calculate_derivatives self vsd vsq vso in
  update_fluxes_and_currents self dervfsd dervfsq dervfrd dervfrq deriso.

(** The dq0 voltage that one pass of the loop body applies: lines 450-453. *)
Definition applied_voltage (self : Motor) : R * R * R :=
  let self := set_t (t self + h self) self in
  let '((vs1, vs2, vs3), self) := source_voltage self in
  let self := load_torque self in
  direct_voltage_and_quadrature self vs1 vs2 vs3.

(** The three phase currents among the six results of
    [currents_and_fluxes_phases]. *)
Definition phase_currents (self : Motor) (fso : R) : R * R * R :=
  let r := currents_and_fluxes_phases self fso in (fst3 r, snd3 r, thd3 r).

(** The constants that [__init__] computes with numpy. *)
Definition numpy_constants (self : Motor) : Prop :=
  pi23 self = 2 * PI / 3 /\ rq23 self = sqrt (2 / 3) /\ rq3 self = sqrt 3.

(** The dq0 quantities of the transform written into the attributes that
    [currents_and_fluxes_phases] reads. *)
Definition load_dq0 (self : Motor) (x : R * R * R) : Motor :=
  let '(xd, xq, xo) := x in
  set_iso xo (set_isq xq (set_isd xd (set_fsq xq (set_fsd xd self)))).


(** The electrical angle after its single wrap. *)
Definition wrap_angle (x : R) : R :=
  if Rge_dec x (2 * PI) then x - 2 * PI else x.

(** One pass of the loop body in closed form: every attribute after the
    pass as an expression of the attributes before it. *)
Definition step_closed (self : Motor) : Motor :=
  let t' := t self + h self in
  let tete' := wrap_angle (tete self + h self * ws self) in
  let cl' := if Rge_dec t' (tmax self / 2) then 40 else cl self in
  let vs1 := Vs self * cos tete' in
  let vs2 := Vs self * cos (tete' - pi23 self) in
  let vs3 := Vs self * cos (tete' + pi23 self) in
  let vsd := rq23 self * (vs1 - vs2 / 2 - vs3 / 2) in
  let vsq := rq23 self * (vs2 * rq3 self / 2 - vs3 * rq3 self / 2) in
  let vso := (vs1 + vs2 + vs3) / rq3 self in
  let fsd' := fsd self + (vsd - rs self * isd self) * h self in
  let fsq' := fsq self + (vsq - rs self * isq self) * h self in
  let frd' :=
    frd self + (- rr self * ird self - frq self * wm self) * h self in
  let frq' :=
    frq self + (- rr self * irq self + frd self * wm self) * h self in
  let iso' := iso self + (vso - rs self * iso self) / lso self * h self in
  let fso := lso self * iso' in
  let ce' := amsr self * (fsq' * frd' - fsd' * frq') in
  let isd' := idt self * (lr self * fsd' - msr self * frd') in
  let isq' := idt self * (lr self * fsq' - msr self * frq') in
  let ird' := idt self * (- msr self * fsd' + ls self * frd') in
  let irq' := idt self * (- msr self * fsq' + ls self * frq') in
  let is1 := rq23 self * isd' + iso' / rq3 self in
  let is2 :=
    rq23 self * (- isd' / 2 + rq3 self * isq' / 2) + iso' / rq3 self in
  let is3 :=
    rq23 self * (- isd' / 2 - rq3 self * isq' / 2) + iso' / rq3 self in
  let fs1 := rq23 self * fsd' + fso / rq3 self in
  let fs2 :=
    rq23 self * (- fsd' / 2 + rq3 self * fsq' / 2) + fso / rq3 self in
  let fs3 :=
    rq23 self * (- fsd' / 2 - rq3 self * fsq' / 2) + fso / rq3 self in
  let wm' := wm self + (ce' - cl' - wm self * kf self) * h self / jm self in
  let cm := ce' - cl' in
  let temp' :=
    temp self
    + rs self * sqrt (is1 ^ 2 + is2 ^ 2 + is3 ^ 2) ^ 2 * h self
      / (m self * C self) in
  let st' (tp' : R) : State :=
    {| cl := cl'; wm := wm'; t := t'; tp := tp'; j := j self; ce := ce';
       ws := ws self; Vsm := Vsm self; Vs := Vs self; tete := tete';
       fsd := fsd'; fsq := fsq'; frd := frd'; frq := frq';
       isd := isd'; isq := isq'; ird := ird'; irq := irq'; iso := iso';
       rg := rg self; temp := temp'; m := m self; C := C self |} in
  if Rge_dec t' (tp self) then
    {| par := par self;
       st := st' (tp self + hp self);
       tr :=
         {| tempo := tempo self ++ [t'];
            corrented := corrented self ++ [isd'];
            correnteq := correnteq self ++ [isq'];
            corrente1 := corrente1 self ++ [is1];
            corrente2 := corrente2 self ++ [is2];
            corrente3 := corrente3 self ++ [is3];
            tensao1 := tensao1 self ++ [vso];
            tensao2 := tensao2 self ++ [vsd];
            tensao3 := tensao3 self ++ [vsq];
            tensaosd := tensaosd self;
            tensaosq := tensaosq self;
            fluxord := fluxord self ++ [frd'];
            fluxorq := fluxorq self ++ [frq'];
            fluxos1 := fluxos1 self ++ [fs1];
            fluxos2 := fluxos2 self ++ [fs2];
            fluxos3 := fluxos3 self ++ [fs3];
            fluxosd := fluxosd self ++ [fsd'];
            fluxosq := fluxosq self ++ [fsq'];
            fluxos := fluxos self ++ [fso];
            conjugado := conjugado self ++ [ce'];
            velocidade := velocidade self ++ [wm'];
            frequencia := frequencia self ++ [ws self];
            conjcarga := conjcarga self ++ [cl'];
            correnteo := correnteo self ++ [iso'];
            torque_mecanico := torque_mecanico self ++ [cm];
            temperatura := temperatura self ++ [temp'] |} |}
  else {| par := par self; st := st' (tp self); tr := tr self |}.

(** The state of the doctest of [load_torque] ([motor.t = 5],
    [motor.tmax = 10]), and the same instance after the call with its clock
    set back to 0. *)
Definition doctest_motor : Motor := set_tmax 10 (set_t 5 reference).

Definition rewound_motor : Motor := set_t 0 (load_torque doctest_motor).

(** Along a run the load torque is 0, or it is 40 and the threshold is
    behind. *)
Definition torque_latch (self : Motor) : Prop :=
  cl self = 0 \/ (cl self = 40 /\ t self >= tmax self / 2).

(** Zero flux, current, speed and torque. *)
Definition at_rest (self : Motor) : Prop :=
  fsd self = 0 /\ fsq self = 0 /\ frd self = 0 /\ frq self = 0
  /\ isd self = 0 /\ isq self = 0 /\ ird self = 0 /\ irq self = 0
  /\ iso self = 0 /\ wm self = 0 /\ ce self = 0.

(** The reference instance with the source switched off
    ([motor.Vs = 0]). *)
Definition unpowered : Motor := set_Vs 0 reference.

(** ** The sampling clock in units of the time step

    With the constructor's [h = 1e-5] and [hp = 1 / 2000 = 50 * h], the
    clock of [simulate] counts in whole steps: [ticks] is [t / h], [next] is
    [tp / h] and [stamps] are the recorded times over [h]. *)

Record IClock : Set := { ticks : Z; next : Z; stamps : list Z }.

Definition iclock_step (c : IClock) : IClock :=
  let n := (ticks c + 1)%Z in
  if (n >=? next c)%Z then
    {| ticks := n; next := (next c + 50)%Z; stamps := stamps c ++ [n] |}
  else {| ticks := n; next := next c; stamps := stamps c |}.

Definition iclock_reset : IClock := {| ticks := 0; next := 0; stamps := [] |}.

(** The clock of a motor read in units of [h]. *)
Definition clock_of (self : Motor) (c : IClock) : Prop :=
  t self = IZR (ticks c) * h self
  /\ tp self = IZR (next c) * h self
  /\ tempo self = map (fun k : Z => IZR k * h self) (stamps c).

(** The number of passes of the default run, [tmax / h]. *)
Definition passes : nat := Z.to_nat 100000.

(** A relation between every element of a list and its successor. *)
Fixpoint consecutive {A : Type} (P : A -> A -> Prop) (l : list A) : Prop :=
  match l with
  | a :: (b :: _) as r => P a b /\ consecutive P r
  | _ => True
  end.

Fixpoint consecutiveb {A : Type} (p : A -> A -> bool) (l : list A) : bool :=
  match l with
  | a :: (b :: _) as r => p a b && consecutiveb p r
  | _ => true
  end.

(** ** More attribute assignments and views of an instance *)

(** [self.h = v]: the step is an ordinary attribute after construction. *)
Definition set_h (v : R) (self : Motor) : Motor :=
  {| par :=
       {| pi23 := pi23 self; rq23 := rq23 self; rq3 := rq3 self;
          rs := rs self; rr := rr self; ls := ls self; lr := lr self;
          msr := msr self; lso := lso self;
          f_onda_p := f_onda_p self; f_onda_m := f_onda_m self;
          q1 := q1 self; q2 := q2 self; q3 := q3 self;
          jm := jm self; kf := kf self;
          cte_tempo_mec := cte_tempo_mec self;
          idt := idt self; p := p self; amsr := amsr self;
          valor_mu := valor_mu self;
          h := v; tmax := tmax self; hp := hp self |};
     st := st self; tr := tr self |}.

(** The reference instance with its step set to zero. *)
Definition stalled : Motor := set_h 0 reference.

(** The 24 lists that [outputs] appends to, and the two it never touches. *)
Definition written_channels (T : Trace) : list (list R) :=
  [tempo T; corrented T; correnteq T; corrente1 T; corrente2 T; corrente3 T;
   tensao1 T; tensao2 T; tensao3 T; fluxord T; fluxorq T;
   fluxos1 T; fluxos2 T; fluxos3 T; fluxosd T; fluxosq T; fluxos T;
   conjugado T; velocidade T; frequencia T; conjcarga T; correnteo T;
   torque_mecanico T; temperatura T].

Definition all_channels (T : Trace) : list (list R) :=
  written_channels T ++ [tensaosd T; tensaosq T].

(** [l'] is [l] with something appended. *)
Definition extends {A : Type} (l l' : list A) : Prop :=
  exists more : list A, l' = l ++ more.

(** The equilibrium speed of the mechanical equation at the present
    torques. *)
Definition wm_equilibrium (self : Motor) : R :=
  (ce self - cl self) / kf self.

(** ** Class [Controle] *)

Module Controle.

(** Comparisons of Python numbers as booleans. *)
Definition Reqb (x y : R) : bool := if Req_dec_T x y then true else false.
Definition Rneb (x y : R) : bool := if Req_dec_T x y then false else true.
Definition Rgeb (x y : R) : bool := if Rge_dec x y then true else false.

(** *** The numpy operations used *)

(** Element-wise binary operation on two arrays of one shape. *)
Definition map2 {A B C : Type} (f : A -> B -> C) (l : list A) (l' : list B)
  : list C :=
  map (fun ab => f (fst ab) (snd ab)) (combine l l').

(** [np.linspace(start, stop, num)] with the default [endpoint=True]:
    [arange(num) * step + start] with [step = delta / (num - 1)], the last
    element overwritten by [stop]; for [num = 1] numpy multiplies by [delta]
    instead and overwrites nothing. *)
Definition linspace (start stop : R) (num : nat) : list R :=
  let div := (num - 1)%nat in
  let delta := stop - start in
  let y := map INR (seq 0 num) in
  let y :=
    if (0 <? div)%nat then map (fun k => k * (delta / INR div)) y
    else map (fun k => k * delta) y in
  let y := map (fun v => v + start) y in
  if (1 <? num)%nat then removelast y ++ [stop] else y.

(** Python's and numpy's [%]: the remainder has the sign of the divisor. *)
Definition py_mod (a b : R) : R := a - b * IZR (Int_part (a / b)).

(** [np.maximum.reduce([a, b, c])] and [np.minimum.reduce([a, b, c])]. *)
Definition maximum_reduce (a b c : list R) : list R :=
  fold_left (map2 Rmax) [b; c] a.
Definition minimum_reduce (a b c : list R) : list R :=
  fold_left (map2 Rmin) [b; c] a.

(** *** Attributes *)

(** The attributes that [controle_pwm] assigns. *)
Record PWM : Type := {
  t_pwm : list R;
  v1 : list R; v2 : list R; v3 : list R;
  i1 : list R; i2 : list R; i3 : list R;
  vN0max_star : list R; vN0mim_star : list R; vN0_star : list R;
  v10 : list R; v20 : list R; v30 : list R
}.

(** [pwm] and [mu_values] do not exist before [controle_pwm] and
    [exec_pwm] have run. *)
Record Controle : Type := {
  motor : Motor.Motor;
  msr : R; p : R; jm : R; kf : R; rs : R; ls : R;
  q1 : R; q2 : R; q3 : R;
  valor_mu : R; Vs : R; f_onda_p : R;
  pwm : option PWM;
  mu_values : option (list R)
}.

Definition __init__ (motor : Motor.Motor) : Controle :=
  {| motor := motor;
     msr := Motor.msr motor; p := Motor.p motor; jm := Motor.jm motor;
     kf := Motor.kf motor; rs := Motor.rs motor; ls := Motor.ls motor;
     q1 := Motor.q1 motor; q2 := Motor.q2 motor; q3 := Motor.q3 motor;
     valor_mu := Motor.valor_mu motor; Vs := Motor.Vs motor;
     f_onda_p := Motor.f_onda_p motor;
     pwm := None; mu_values := None |}.

Definition set_pwm (v : PWM) (self : Controle) : Controle :=
  {| motor := motor self;
     msr := msr self; p := p self; jm := jm self; kf := kf self;
     rs := rs self; ls := ls self;
     q1 := q1 self; q2 := q2 self; q3 := q3 self;
     valor_mu := valor_mu self; Vs := Vs self; f_onda_p := f_onda_p self;
     pwm := Some v; mu_values := mu_values self |}.

Definition set_mu_values (v : list R) (self : Controle) : Controle :=
  {| motor := motor self;
     msr := msr self; p := p self; jm := jm self; kf := kf self;
     rs := rs self; ls := ls self;
     q1 := q1 self; q2 := q2 self; q3 := q3 self;
     valor_mu := valor_mu self; Vs := Vs self; f_onda_p := f_onda_p self;
     pwm := pwm self; mu_values := Some v |}.

Definition set_valor_mu (v : R) (self : Controle) : Controle :=
  {| motor := motor self;
     msr := msr self; p := p self; jm := jm self; kf := kf self;
     rs := rs self; ls := ls self;
     q1 := q1 self; q2 := q2 self; q3 := q3 self;
     valor_mu := v; Vs := Vs self; f_onda_p := f_onda_p self;
     pwm := pwm self; mu_values := mu_values self |}.

(** *** Linear model *)

(** Numerator and denominator coefficients, highest power first. *)
Definition transfer_function (self : Controle) : list R * list R :=
  let num := [msr self * p self] in
  let den := [jm self; 2 * kf self; rs self + ls self] in
  (num, den).

(** The four matrices, row by row; the three quotients are quotients of
    Python numbers. *)
Definition state_space_representation (self : Controle)
  : result (list (list R) * list (list R) * list (list R) * list (list R)) :=
  let '(num, den) := transfer_function self in
  let a2 := nth 0 den 0 in
  let a1 := nth 1 den 0 in
  let a0 := nth 2 den 0 in
  let b0 := nth 0 num 0 in
  x <- py_div (- a0) a2 ;;
  y <- py_div (- a1) a2 ;;
  let A := [[0; 1]; [x; y]] in
  b <- py_div b0 a2 ;;
  let B := [[0]; [b]] in
  let C := [[1; 0]] in
  let D := [[0]] in
  ret (A, B, C, D).

(** *** Inverter switches *)

(** [chaves] prints one line that shows its six local variables
    [chave_1] ... [chave_6]; they are what is returned here. *)
Definition chaves (self : Controle)
  : bool * bool * bool * bool * bool * bool :=
  let chave_1 := if Reqb (q1 self) 1 then true else false in
  let chave_2 := if Reqb (q2 self) 1 then true else false in
  let chave_3 := if Reqb (q3 self) 1 then true else false in
  let q1_bar := 1 - q1 self in
  let q2_bar := 1 - q2 self in
  let q3_bar := 1 - q3 self in
  let chave_4 := if Reqb q1_bar 1 then true else false in
  let chave_5 := if Reqb q2_bar 1 then true else false in
  let chave_6 := if Reqb q3_bar 1 then true else false in
  (chave_1, chave_2, chave_3, chave_4, chave_5, chave_6).

(** *** Pulse-width modulation *)

(** [controle_pwm] assigns the arrays of [PWM]; the carrier [onda_port] and
    [PWM_signal] are locals that are only plotted, returned here beside the
    instance. *)
Definition controle_pwm (self : Controle)
  : result ((list R * list R) * Controle) :=
  let t_pwm := linspace 0 2 1000 in
  let v1 := map (fun x => Vs self * sin (2 * PI * x)) t_pwm in
  let v2 := map (fun x => Vs self * sin (2 * PI * x + 2 * PI / 3)) t_pwm in
  let v3 := map (fun x => Vs self * sin (2 * PI * x + 4 * PI / 3)) t_pwm in
  let i1 := map (fun x => Vs self * sin (2 * PI * x - PI / 2)) t_pwm in
  let i2 :=
    map (fun x => Vs self * sin (2 * PI * x + 2 * PI / 3 - PI / 2)) t_pwm in
  let i3 :=
    map (fun x => Vs self * sin (2 * PI * x + 4 * PI / 3 - PI / 2)) t_pwm in
  let vN0max_star :=
    map (fun x => Vs self / 2 - x) (maximum_reduce v1 v2 v3) in
  let vN0mim_star :=
    map (fun x => - Vs self / 2 - x) (minimum_reduce v1 v2 v3) in
  let vN0_star :=
    map2 (fun a b => valor_mu self * a + (1 - valor_mu self) * b)
      vN0max_star vN0mim_star in
  let v10 := map2 Rplus v1 vN0_star in
  let v20 := map2 Rplus v2 vN0_star in
  let v30 := map2 Rplus v3 vN0_star in
  periodo_port <- py_div 1 (f_onda_p self) ;;
  let onda_port :=
    map (fun x => 1 - 2 * Rabs (py_mod x periodo_port * f_onda_p self - 0.5))
      t_pwm in
  let PWM_signal :=
    map2 (fun v o => if Rgeb v o then Vs self else 0) v10 onda_port in
  ret ((onda_port, PWM_signal),
       set_pwm
         {| t_pwm := t_pwm; v1 := v1; v2 := v2; v3 := v3;
            i1 := i1; i2 := i2; i3 := i3;
            vN0max_star := vN0max_star; vN0mim_star := vN0mim_star;
            vN0_star := vN0_star; v10 := v10; v20 := v20; v30 := v30 |}
         self).

(** [exec_pwm]: the loop runs over [np.linspace(0, 10e-1, 1)]. *)
Definition exec_pwm (self : Controle) : result Controle :=
  let self := set_mu_values (linspace 0 1 1) self in
  if Rneb (valor_mu self) 1 then
    r <- controle_pwm self ;; ret (snd r)
  else
    fold_left
      (fun acc mu =>
         self <- acc ;;
         let self := set_valor_mu mu self in
         r <- controle_pwm self ;; ret (snd r))
      (match mu_values self with Some l => l | None => [] end)
      (ret self).

End Controle.

(** *** What the linear model says *)

(** A polynomial with coefficients highest power first, at [s]. *)
Definition polyval (coeffs : list R) (s : R) : R :=
  fold_left (fun acc c => acc * s + c) coeffs 0.

Definition entry (M : list (list R)) (i k : nat) : R :=
  nth k (nth i M []) 0.

(** The transfer function [C (sI - A)^-1 B + D] of a single-input
    single-output system with two states, as the quotient of
    [C adj(sI - A) B] by [det (sI - A)]. *)
Definition ss_transfer (A B C D : list (list R)) (s : R) : R :=
  let det := (s - entry A 0 0) * (s - entry A 1 1)
             - entry A 0 1 * entry A 1 0 in
  let adjB0 := (s - entry A 1 1) * entry B 0 0 + entry A 0 1 * entry B 1 0 in
  let adjB1 := entry A 1 0 * entry B 0 0 + (s - entry A 0 0) * entry B 1 0 in
  (entry C 0 0 * adjB0 + entry C 0 1 * adjB1) / det + entry D 0 0.

(** * Theorems *)

Ltac split_all := repeat match goal with |- _ /\ _ => split end.

(** Evaluation of the embedding, leaving the real operations and the
    machine parameters alone. *)
Ltac run :=
  cbv -[Rplus Rmult Rminus Ropp Rdiv Rinv sqrt cos PI Rge_dec Rlt_dec
        Req_dec_T IZR Q2R pow app
        pi23 rq23 rq3 rs rr ls lr msr lso f_onda_p f_onda_m q1 q2 q3
        jm kf cte_tempo_mec idt p amsr valor_mu h tmax hp].

Ltac run_in H :=
  cbv -[Rplus Rmult Rminus Ropp Rdiv Rinv sqrt cos PI Rge_dec Rlt_dec
        Req_dec_T IZR Q2R pow app
        pi23 rq23 rq3 rs rr ls lr msr lso f_onda_p f_onda_m q1 q2 q3
        jm kf cte_tempo_mec idt p amsr valor_mu h tmax hp] in H.

(** The same, machine parameters included: for concrete instances. *)
Ltac run_all :=
  cbv -[Rplus Rmult Rminus Ropp Rdiv Rinv sqrt cos PI Rge_dec Rlt_dec
        Req_dec_T IZR Q2R pow app].

(** ** The loop body in closed form *)

(** The two guarded assignments are decided one after the other, so that
    every later assignment acts on a record of plain values. *)
Lemma step_closed_form (self : Motor) : step self = step_closed self.
Proof.
  destruct self as [P S T]; destruct S.
  unfold step, step_closed, wrap_angle.
  cbv beta iota zeta
    delta [set_t with_state source_voltage set_tete
           par st tr cl wm t tp j ce ws Vsm Vs tete fsd fsq frd frq
           isd isq ird irq iso rg temp m C].
  destruct (Rge_dec _ (2 * PI)).
  all: cbv beta iota zeta
    delta [load_torque set_cl with_state
           par st tr cl wm t tp j ce ws Vsm Vs tete fsd fsq frd frq
           isd isq ird irq iso rg temp m C].
  all: destruct (Rge_dec _ (_ / 2)).
  all: run.
  all: destruct (Rge_dec _ _); reflexivity.
Qed.

(** After rewriting with [step_closed_form]: decide whether the pass
    records a sample and read the attributes off the record. *)
Ltac step_cases self :=
  rewrite ?step_closed_form; unfold step_closed;
  destruct (Rge_dec (t self + h self) (tp self));
  cbn [par st tr cl wm t tp j ce ws Vsm Vs tete fsd fsq frd frq
       isd isq ird irq iso rg temp m C tempo].

(** Attributes that one pass of the loop body leaves alone, and the clock. *)
Lemma step_frame (self : Motor) :
  par (step self) = par self
  /\ m (step self) = m self /\ C (step self) = C self
  /\ Vs (step self) = Vs self /\ ws (step self) = ws self
  /\ t (step self) = t self + h self.
Proof. step_cases self; split_all; reflexivity. Qed.

Lemma iter_S {A : Type} (f : A -> A) (n : nat) (a : A) :
  iter f (S n) a = f (iter f n a).
Proof. reflexivity. Qed.

Lemma iter_shift {A : Type} (f : A -> A) (n : nat) (a : A) :
  iter f (S n) a = iter f n (f a).
Proof.
  induction n as [|n IH]; [reflexivity|].
  rewrite (iter_S f (S n)), IH; reflexivity.
Qed.

Lemma iter_step_frame (n : nat) (self : Motor) :
  par (iter step n self) = par self
  /\ m (iter step n self) = m self /\ C (iter step n self) = C self
  /\ Vs (iter step n self) = Vs self.
Proof.
  induction n as [|n (IHp & IHm & IHC & IHV)]; [repeat split|].
  rewrite iter_S.
  destruct (step_frame (iter step n self)) as (Hp & Hm & HC & HV & _).
  rewrite Hp, Hm, HC, HV; auto.
Qed.

(** ** Electrical state *)

(** C1. One electrical step is one explicit-Euler step: each flux and [iso]
    grows by its derivative times [h], with the derivatives of the
    specification, and the zero-sequence flux returned is [lso * iso] at the
    updated [iso]; one pass of the loop body updates the five attributes in
    that way at the voltage it applies. *)
Theorem electrical_step_is_euler :
  forall (self : Motor) (vsd vsq vso : R),
    let r := electrical_step self vsd vsq vso in
    calculate_derivatives self vsd vsq vso
      = (vsd - rs self * isd self,
         vsq - rs self * isq self,
         - rr self * ird self - frq self * wm self,
         - rr self * irq self + frd self * wm self,
         (vso - rs self * iso self) / lso self)
    /\ fsd (snd r) = fsd self + (vsd - rs self * isd self) * h self
    /\ fsq (snd r) = fsq self + (vsq - rs self * isq self) * h self
    /\ frd (snd r)
       = frd self + (- rr self * ird self - frq self * wm self) * h self
    /\ frq (snd r)
       = frq self + (- rr self * irq self + frd self * wm self) * h self
    /\ iso (snd r)
       = iso self + (vso - rs self * iso self) / lso self * h self
    /\ fst r = lso self * iso (snd r)
    /\ (let '(vsd, vsq, vso) := applied_voltage self in
        fsd (step self) = fsd self + (vsd - rs self * isd self) * h self
        /\ fsq (step self) = fsq self + (vsq - rs self * isq self) * h self
        /\ frd (step self)
           = frd self + (- rr self * ird self - frq self * wm self) * h self
        /\ frq (step self)
           = frq self + (- rr self * irq self + frd self * wm self) * h self
        /\ iso (step self)
           = iso self + (vso - rs self * iso self) / lso self * h self).
Proof.
  intros self vsd vsq vso r; subst r.
  split_all; try reflexivity.
  assert (Hv : applied_voltage self
               = (let tete' := wrap_angle (tete self + h self * ws self) in
                  let vs1 := Vs self * cos tete' in
                  let vs2 := Vs self * cos (tete' - pi23 self) in
                  let vs3 := Vs self * cos (tete' + pi23 self) in
                  (rq23 self * (vs1 - vs2 / 2 - vs3 / 2),
                   rq23 self * (vs2 * rq3 self / 2 - vs3 * rq3 self / 2),
                   (vs1 + vs2 + vs3) / rq3 self))).
  { destruct self as [P S T]; destruct S.
    unfold applied_voltage, wrap_angle.
    cbv beta iota zeta
      delta [set_t with_state source_voltage set_tete
             par st tr cl wm t tp j ce ws Vsm Vs tete fsd fsq frd frq
             isd isq ird irq iso rg temp m C].
    destruct (Rge_dec _ (2 * PI)).
    all: cbv beta iota zeta
      delta [load_torque set_cl with_state
             par st tr cl wm t tp j ce ws Vsm Vs tete fsd fsq frd frq
             isd isq ird irq iso rg temp m C].
    all: destruct (Rge_dec _ (_ / 2)); reflexivity. }
  rewrite Hv; cbv zeta.
  step_cases self; split_all; reflexivity.
Qed.

(** C2. The torque and the four currents are the algebraic functions of the
    flux state named in the specification; the call returns the torque,
    stores all five, and leaves the fluxes (and the clock) as they are. *)
Theorem torque_and_currents_from_fluxes :
  forall self : Motor,
    let r := calculate_electromagnetic_torque self in
    fst r = amsr self * (fsq self * frd self - fsd self * frq self)
    /\ ce (snd r) = amsr self * (fsq self * frd self - fsd self * frq self)
    /\ isd (snd r) = idt self * (lr self * fsd self - msr self * frd self)
    /\ isq (snd r) = idt self * (lr self * fsq self - msr self * frq self)
    /\ ird (snd r) = idt self * (- msr self * fsd self + ls self * frd self)
    /\ irq (snd r) = idt self * (- msr self * fsq self + ls self * frq self)
    /\ (fsd (snd r), fsq (snd r), frd (snd r), frq (snd r))
       = (fsd self, fsq self, frd self, frq self)
    /\ t (snd r) = t self.
Proof.
  intros self r; subst r.
  destruct self as [P S T]; destruct S.
  run; split_all; reflexivity.
Qed.

(** ** Coordinate transforms *)

Lemma rq23_sqr : sqrt (2 / 3) * sqrt (2 / 3) = 2 / 3.
Proof. apply sqrt_sqrt; lra. Qed.

Lemma rq3_sqr : sqrt 3 * sqrt 3 = 3.
Proof. apply sqrt_sqrt; lra. Qed.

Lemma rq3_pos : 0 < sqrt 3.
Proof. apply sqrt_lt_R0; lra. Qed.

Lemma reference_numpy_constants : numpy_constants reference.
Proof. run_all; repeat split. Qed.

(** The inverse formulas undo the forward ones, for quantities [k] and [r]
    with [k * k = 2 / 3] and [r * r = 3]. *)
Lemma dq0_inverse (k r a b c : R) :
  k * k = 2 / 3 -> r * r = 3 -> 0 < r ->
  let xd := k * (a - b / 2 - c / 2) in
  let xq := k * (b * r / 2 - c * r / 2) in
  let xo := (a + b + c) / r in
  k * xd + xo / r = a
  /\ k * (- xd / 2 + r * xq / 2) + xo / r = b
  /\ k * (- xd / 2 - r * xq / 2) + xo / r = c.
Proof.
  intros Hk Hr Hpos xd xq xo; subst xd xq xo.
  assert (Hinv : / r * / r = / 3).
  { rewrite <- Rinv_mult, Hr; reflexivity. }
  split_all.
  - replace (k * (k * (a - b / 2 - c / 2)) + (a + b + c) / r / r)
      with (k * k * (a - b / 2 - c / 2) + (a + b + c) * (/ r * / r))
      by (field; lra).
    rewrite Hk, Hinv; lra.
  - replace (k * (- (k * (a - b / 2 - c / 2)) / 2
                  + r * (k * (b * r / 2 - c * r / 2)) / 2)
             + (a + b + c) / r / r)
      with (k * k * (- (a - b / 2 - c / 2) / 2 + r * r * (b - c) / 4)
            + (a + b + c) * (/ r * / r))
      by (field; lra).
    rewrite Hk, Hr, Hinv; lra.
  - replace (k * (- (k * (a - b / 2 - c / 2)) / 2
                  - r * (k * (b * r / 2 - c * r / 2)) / 2)
             + (a + b + c) / r / r)
      with (k * k * (- (a - b / 2 - c / 2) / 2 - r * r * (b - c) / 4)
            + (a + b + c) * (/ r * / r))
      by (field; lra).
    rewrite Hk, Hr, Hinv; lra.
Qed.

(** C3, as amended.  In real arithmetic the inverse transform of
    [currents_and_fluxes_phases] applied to the result of
    [direct_voltage_and_quadrature] returns the original triple exactly, on
    the current side and on the flux side alike. *)
Theorem dq0_round_trip_exact :
  forall (self : Motor) (a b c : R),
    numpy_constants self ->
    let x := direct_voltage_and_quadrature self a b c in
    currents_and_fluxes_phases (load_dq0 self x) (snd x) = (a, b, c, a, b, c).
Proof.
  intros self a b c (_ & Hk & Hr) x; subst x.
  destruct self as [P S T]; destruct S.
  cbn [par] in Hk, Hr.
  run.
  rewrite Hk, Hr.
  destruct (dq0_inverse (sqrt (2 / 3)) (sqrt 3) a b c
              rq23_sqr rq3_sqr rq3_pos) as (H1 & H2 & H3).
  cbv zeta in H1, H2, H3.
  rewrite H1, H2, H3; reflexivity.
Qed.

Lemma dq0_round_trip_exact_witness :
  numpy_constants reference
  /\ currents_and_fluxes_phases
       (load_dq0 reference (direct_voltage_and_quadrature reference 1 2 3))
       (snd (direct_voltage_and_quadrature reference 1 2 3))
     = (1, 2, 3, 1, 2, 3).
Proof.
  split.
  - exact reference_numpy_constants.
  - exact (dq0_round_trip_exact reference 1 2 3 reference_numpy_constants).
Defined.

Module Binary64Facts.
Import PrimFloat.
Local Open Scope float_scope.
#[local] Set Warnings "-inexact-float".

(** C3, the floating-point half refuted.  On doubles the round trip of
    (1e7, 2e7, 3e7) comes back two units in the last place high in each
    component, more than 1e-9 away from its input. *)
Lemma dq0_round_trip_off :
  Binary64.round_trip 1e7 2e7 3e7
  = (10000000.000000004, 20000000.000000004, 30000000.000000004)
  /\ ltb 1e-9 (Binary64.round_trip_error 1e7 2e7 3e7) = true.
Proof. split; vm_compute; reflexivity. Qed.

(** At the voltages of the source's own doctest the binary64 transform
    returns the doctest's three values, and the round trip is exact. *)
Lemma dq0_doctest :
  Binary64.direct_voltage_and_quadrature
    311.1247727163462 (-154.5465853680912) (-156.57818734825486)
  = (381.0484697472187, 1.4365595368457367, 6.563712636189232e-14)
  /\ Binary64.round_trip_error
       311.1247727163462 (-154.5465853680912) (-156.57818734825486) = 0.
Proof. split; vm_compute; reflexivity. Qed.

(** X24. The clock of the default run on doubles: the sum of 100000 steps
    of 1e-5 stays below 1, so the loop makes 100001 passes and ends at
    1.00001, past [tmax]; 2001 times are recorded, increasing, each within
    [h] of [hp] after the one before. *)
Lemma sampling_on_doubles :
  match Binary64.simulate (Z.to_nat 100001) Binary64.reset with
  | Some c =>
      Binary64.t c = 1.0000099999980838
      /\ length (Binary64.tempo c) = 2001%nat
      /\ Binary64.increasing (Binary64.tempo c) = true
      /\ Binary64.spaced (Binary64.tempo c) = true
  | None => False
  end.
Proof. vm_compute; repeat split. Qed.

Lemma sampling_on_doubles_needs_100001 :
  Binary64.simulate (Z.to_nat 100000) Binary64.reset = None.
Proof. vm_compute; reflexivity. Qed.

End Binary64Facts.

(** C10. The three phase currents ignore the argument [fso], and the thermal
    update, which passes 1, adds the loss of the phase currents computed at
    any zero-sequence flux. *)
Theorem phase_currents_ignore_fso :
  forall (self : Motor) (fso fso' : R),
    phase_currents self fso = phase_currents self fso'
    /\ (forall h_arg : R,
          let '(is1, is2, is3) := phase_currents self fso in
          temp (snd (calcular_temperatura self h_arg))
          = temp self
            + rs self * sqrt (is1 ^ 2 + is2 ^ 2 + is3 ^ 2) ^ 2 * h self
              / (m self * C self)).
Proof.
  intros self fso fso'.
  destruct self as [P S T]; destruct S.
  split; [|intros h_arg]; run; reflexivity.
Qed.

(** The phase fluxes do depend on [fso]: the first one moves by
    [(fso' - fso) / rq3]. *)
Lemma phase_fluxes_depend_on_fso (self : Motor) (fso fso' : R) :
  numpy_constants self -> fso <> fso' ->
  let '(_, _, _, fs1, _, _) := currents_and_fluxes_phases self fso in
  let '(_, _, _, fs1', _, _) := currents_and_fluxes_phases self fso' in
  fs1 <> fs1'.
Proof.
  intros (_ & _ & Hr) Hne.
  destruct self as [P S T]; destruct S; cbn [par] in Hr.
  run; rewrite Hr; intros Heq.
  apply Rplus_eq_reg_l in Heq.
  apply Hne.
  apply (Rmult_eq_reg_r (/ sqrt 3)); [exact Heq|].
  apply Rinv_neq_0_compat, Rgt_not_eq, rq3_pos.
Qed.

(** ** Thermal state *)

Lemma sum_sqr_nonneg (a b c : R) : 0 <= a ^ 2 + b ^ 2 + c ^ 2.
Proof. nra. Qed.

(** The loss term: [sqrt] and the square cancel on a sum of squares. *)
Lemma corrente_eficaz_sqr (a b c : R) :
  sqrt (a ^ 2 + b ^ 2 + c ^ 2) ^ 2 = a ^ 2 + b ^ 2 + c ^ 2.
Proof. apply pow2_sqrt, sum_sqr_nonneg. Qed.

Lemma thermal_constants_pos : 0 < 65 / 1.5 * 0.385.
Proof. lra. Qed.

(** The temperature that the thermal update stores. *)
Lemma calcular_temperatura_temp (self : Motor) (h_arg : R) :
  temp (snd (calcular_temperatura self h_arg))
  = temp self
    + rs self
      * (fst3 (currents_and_fluxes_phases self 1) ^ 2
         + snd3 (currents_and_fluxes_phases self 1) ^ 2
         + thd3 (currents_and_fluxes_phases self 1) ^ 2)
      * h self / (m self * C self).
Proof.
  destruct self as [P S T]; destruct S.
  run; rewrite corrente_eficaz_sqr; reflexivity.
Qed.

(** C6. The thermal update adds [rs * (is1^2 + is2^2 + is3^2) * h / (m * C)]
    to the temperature, once: the value returned is the stored temperature,
    so the assignment of [simulate] stores it again unchanged; [m] and [C]
    are the constants 65/1.5 and 0.385 of [reset_initial_conditions], which
    the loop body never writes. *)
Theorem thermal_increment :
  forall (self : Motor) (h_arg : R),
    let r := calcular_temperatura self h_arg in
    let '(is1, is2, is3) := phase_currents self 1 in
    temp (snd r)
    = temp self
      + rs self * (is1 ^ 2 + is2 ^ 2 + is3 ^ 2) * h self / (m self * C self)
    /\ fst r = temp (snd r)
    /\ set_temp (fst r) (snd r) = snd r
    /\ m (reset_initial_conditions self) = 65 / 1.5
    /\ C (reset_initial_conditions self) = 0.385
    /\ m (step self) = m self
    /\ C (step self) = C self.
Proof.
  intros self h_arg r; subst r.
  destruct (step_frame self) as (_ & Hm & HC & _).
  rewrite Hm, HC; clear Hm HC.
  unfold phase_currents; cbv zeta.
  split; [apply calcular_temperatura_temp|].
  destruct self as [P S T]; destruct S.
  run; split_all; reflexivity.
Qed.

(** The temperature after one pass of the loop body is the temperature
    before plus a loss term of the sign of [rs * h / (m * C)]. *)
Lemma step_temp (self : Motor) :
  exists q : R,
    0 <= q
    /\ temp (step self) = temp self + rs self * q * h self / (m self * C self).
Proof.
  step_cases self; rewrite corrente_eficaz_sqr;
    eexists; (split; [apply sum_sqr_nonneg | reflexivity]).
Qed.

Lemma loss_nonneg (r q hh mC : R) :
  0 <= r -> 0 <= q -> 0 <= hh -> 0 < mC -> 0 <= r * q * hh / mC.
Proof.
  intros Hr Hq Hh HmC.
  apply Rmult_le_pos.
  - repeat apply Rmult_le_pos; assumption.
  - left; apply Rinv_0_lt_compat; assumption.
Qed.

(** C7. With [rs >= 0], [h >= 0] and the thermal constants of
    [reset_initial_conditions], the temperature after the thermal update is
    at least the temperature before it, for any state, and so it is after every
    pass of the loop body along a run. *)
Theorem temperature_non_decreasing :
  forall (self : Motor) (h_arg : R),
    0 <= rs self -> 0 <= h self ->
    m self = 65 / 1.5 -> C self = 0.385 ->
    temp self <= temp (snd (calcular_temperatura self h_arg))
    /\ temp self <= temp (step self)
    /\ (forall n : nat,
          temp (iter step n self) <= temp (iter step (S n) self)).
Proof.
  intros self h_arg Hrs Hh Hm HC.
  assert (HmC : 0 < m self * C self)
    by (rewrite Hm, HC; exact thermal_constants_pos).
  assert (Hstep : forall s : Motor,
            par s = par self -> m s = m self -> C s = C self ->
            temp s <= temp (step s)).
  { intros s Hp Hms HCs.
    destruct (step_temp s) as (q & Hq & ->).
    assert (0 <= rs s * q * h s / (m s * C s)); [|lra].
    rewrite Hp, Hms, HCs; apply loss_nonneg; assumption. }
  split_all.
  - rewrite calcular_temperatura_temp.
    assert (0 <= rs self
                 * (fst3 (currents_and_fluxes_phases self 1) ^ 2
                    + snd3 (currents_and_fluxes_phases self 1) ^ 2
                    + thd3 (currents_and_fluxes_phases self 1) ^ 2)
                 * h self / (m self * C self)); [|lra].
    apply loss_nonneg; auto using sum_sqr_nonneg.
  - apply Hstep; reflexivity.
  - intros n; rewrite iter_S.
    destruct (iter_step_frame n self) as (Hp & Hmn & HCn & _).
    apply Hstep; assumption.
Qed.

Lemma reference_thermal :
  0 <= rs reference /\ 0 <= h reference
  /\ m reference = 65 / 1.5 /\ C reference = 0.385.
Proof. run_all; split_all; try reflexivity; lra. Qed.

Lemma temperature_non_decreasing_witness :
  (0 <= rs reference /\ 0 <= h reference
   /\ m reference = 65 / 1.5 /\ C reference = 0.385)
  /\ temp reference <= temp (snd (calcular_temperatura reference 1e-5))
  /\ temp reference <= temp (step reference)
  /\ (forall n : nat,
        temp (iter step n reference) <= temp (iter step (S n) reference)).
Proof.
  split; [exact reference_thermal|].
  destruct reference_thermal as (H1 & H2 & H3 & H4).
  exact (temperature_non_decreasing reference 1e-5 H1 H2 H3 H4).
Defined.

(** ** Load torque *)

Lemma load_torque_cl (self : Motor) :
  cl (load_torque self)
  = if Rge_dec (t self) (tmax self / 2) then 40 else cl self.
Proof.
  unfold load_torque; destruct (Rge_dec _ _); [|reflexivity].
  destruct self as [P S T]; destruct S; reflexivity.
Qed.

(** [load_torque] writes no attribute other than [cl]. *)
Lemma load_torque_frame (self : Motor) :
  load_torque self = set_cl (cl (load_torque self)) self.
Proof.
  rewrite load_torque_cl; unfold load_torque; destruct (Rge_dec _ _);
    destruct self as [P S T]; destruct S; reflexivity.
Qed.

Lemma step_cl (self : Motor) :
  cl (step self)
  = if Rge_dec (t self + h self) (tmax self / 2) then 40 else cl self.
Proof. step_cases self; reflexivity. Qed.

Lemma step_torque_latch (self : Motor) :
  0 <= h self -> torque_latch self ->
  torque_latch (step self)
  /\ cl (step self)
     = if Rge_dec (t (step self)) (tmax (step self) / 2) then 40 else 0.
Proof.
  intros Hh Hl; unfold torque_latch.
  destruct (step_frame self) as (Hp & _ & _ & _ & _ & Ht).
  rewrite step_cl, Ht, Hp.
  destruct (Rge_dec (t self + h self) (tmax self / 2)) as [Hge|Hlt].
  - split; [right; split; [reflexivity | exact Hge] | reflexivity].
  - destruct Hl as [H0 | (_ & Hge)]; [auto | exfalso; lra].
Qed.

(** A run that starts with the load torque at 0: after every pass the load
    torque is decided by the time alone. *)
Lemma run_torque (self : Motor) (n : nat) :
  cl self = 0 -> 0 <= h self ->
  cl (iter step (S n) self)
  = if Rge_dec (t (iter step (S n) self)) (tmax (iter step (S n) self) / 2)
    then 40 else 0.
Proof.
  intros Hcl Hh.
  assert (Hinv : forall k : nat,
            torque_latch (iter step k self)
            /\ h (iter step k self) = h self).
  { induction k as [|k (IHl & IHh)].
    - split; [left; exact Hcl | reflexivity].
    - rewrite iter_S; split.
      + apply step_torque_latch; [rewrite IHh|]; assumption.
      + destruct (step_frame (iter step k self)) as (Hp & _).
        rewrite Hp; exact IHh. }
  destruct (Hinv n) as (Hl & Hhn).
  rewrite iter_S.
  apply step_torque_latch; [rewrite Hhn; exact Hh | exact Hl].
Qed.

(** C5, as amended.  [load_torque] sets the load torque to 40 when
    [t >= tmax / 2] and leaves it as it was when [t < tmax / 2], writing
    nothing else; so along a run that starts with the load torque at 0 (as
    [reset_initial_conditions] leaves it) and a step [h >= 0], after every
    pass of the loop body the load torque is 0 if [t < tmax / 2] and 40 if
    [t >= tmax / 2]; the reference instance has [tmax / 2 = 0.5]. *)
Theorem load_torque_latches :
  forall self : Motor,
    (t self >= tmax self / 2 -> cl (load_torque self) = 40)
    /\ (t self < tmax self / 2 -> cl (load_torque self) = cl self)
    /\ load_torque self = set_cl (cl (load_torque self)) self
    /\ cl (reset_initial_conditions self) = 0
    /\ (cl self = 0 -> 0 <= h self ->
        forall n : nat,
          let s := iter step (S n) self in
          (t s < tmax s / 2 -> cl s = 0)
          /\ (t s >= tmax s / 2 -> cl s = 40))
    /\ tmax reference / 2 = 0.5.
Proof.
  intros self; split_all.
  - intros Hge; rewrite load_torque_cl.
    destruct (Rge_dec _ _); [reflexivity | contradiction].
  - intros Hlt; rewrite load_torque_cl.
    destruct (Rge_dec _ _); [exfalso; lra | reflexivity].
  - apply load_torque_frame.
  - destruct self as [P S T]; reflexivity.
  - intros Hcl Hh n s; subst s.
    rewrite (run_torque self n Hcl Hh).
    destruct (Rge_dec _ _); split; intros; try reflexivity; exfalso; lra.
  - run_all; lra.
Qed.

Lemma reference_fresh : cl reference = 0 /\ 0 <= h reference.
Proof. run_all; split; [reflexivity | lra]. Qed.

Lemma load_torque_latches_witness :
  (cl reference = 0 /\ 0 <= h reference)
  /\ (forall n : nat,
        let s := iter step (S n) reference in
        (t s < tmax s / 2 -> cl s = 0) /\ (t s >= tmax s / 2 -> cl s = 40))
  /\ tmax reference / 2 = 0.5.
Proof.
  split; [exact reference_fresh|].
  destruct reference_fresh as (Hcl & Hh).
  destruct (load_torque_latches reference) as (_ & _ & _ & _ & Hrun & Htm).
  split; [exact (Hrun Hcl Hh) | exact Htm].
Defined.

(** C5 as stated fails: on the doctest's instance, after the call at
    [t = 5] (with [tmax = 10]) and the clock set back to 0, the next call
    runs at a time below [tmax / 2] and leaves the load torque at 40. *)
Lemma load_torque_not_function_of_time :
  t rewound_motor < tmax rewound_motor / 2
  /\ cl (load_torque rewound_motor) = 40
  /\ cl (load_torque rewound_motor) <> 0.
Proof.
  assert (Ht : t rewound_motor = 0) by reflexivity.
  assert (Htm : tmax rewound_motor = 10).
  { unfold rewound_motor, load_torque.
    destruct (Rge_dec _ _); reflexivity. }
  assert (Hcl : cl rewound_motor = 40).
  { unfold rewound_motor.
    change (cl (load_torque doctest_motor) = 40).
    rewrite load_torque_cl.
    destruct (Rge_dec _ _) as [|Hn]; [reflexivity|].
    exfalso; apply Hn; run_all; lra. }
  assert (Hlt : t rewound_motor < tmax rewound_motor / 2)
    by (rewrite Ht, Htm; lra).
  assert (Hafter : cl (load_torque rewound_motor) = 40).
  { rewrite load_torque_cl.
    destruct (Rge_dec _ _); [reflexivity | exact Hcl]. }
  split_all; [exact Hlt | exact Hafter | rewrite Hafter; lra].
Qed.

(** ** Construction *)

Lemma py_div_inr (x y q : R) :
  py_div x y = inr q -> y <> 0 /\ q = x / y.
Proof.
  unfold py_div; destruct (Req_dec_T y 0) as [Hy|Hy]; intros H.
  - discriminate H.
  - injection H as <-; split; [exact Hy | reflexivity].
Qed.

Lemma py_div_zero (x : R) : py_div x 0 = inl ZeroDivisionError.
Proof.
  unfold py_div; destruct (Req_dec_T 0 0) as [_|Hn];
    [reflexivity | exfalso; apply Hn; reflexivity].
Qed.

Lemma py_div_nonzero (x y : R) : y <> 0 -> py_div x y = inr (x / y).
Proof.
  intros Hy; unfold py_div; destruct (Req_dec_T y 0);
    [contradiction | reflexivity].
Qed.

(** The constructor on the arguments of the source's examples. *)
Lemma init_reference :
  __init__ 0.39 1.41 0.094 0.094 0.091 0.04 0.01 1 1 0 1 = inr reference.
Proof.
  unfold __init__.
  rewrite (py_div_nonzero 0.04 0.01) by lra.
  rewrite (py_div_nonzero 1 (0.094 * 0.094 - 0.091 * 0.091)) by lra.
  cbn [bind ret].
  destruct (Rlt_dec (1 / 2000) 1e-5); [exfalso; lra | reflexivity].
Qed.

(** C9. The constructor fails (with [ZeroDivisionError]) on a zero
    determinant [ls * lr = mrs * mrs]; every instance it returns has the
    step [h = 1e-5 > 0], a sampling interval [hp >= h], a non-zero
    determinant and [idt] its inverse.  The step and the sampling interval
    are not arguments: no call constructs an instance with a non-positive
    step or with [hp < h]. *)
Theorem construction_rejects_bad_configuration :
  forall Rs Rr Ls Lr Msr Jm Kf Q1 Q2 Q3 mu : R,
    (Ls * Lr = Msr * Msr ->
     __init__ Rs Rr Ls Lr Msr Jm Kf Q1 Q2 Q3 mu = inl ZeroDivisionError)
    /\ (forall self : Motor,
          __init__ Rs Rr Ls Lr Msr Jm Kf Q1 Q2 Q3 mu = inr self ->
          h self = 1e-5 /\ 0 < h self /\ h self <= hp self
          /\ ls self * lr self - msr self * msr self <> 0
          /\ idt self = 1 / (ls self * lr self - msr self * msr self)).
Proof.
  intros Rs Rr Ls Lr Msr Jm Kf Q1 Q2 Q3 mu; split.
  - intros Hdet; unfold __init__.
    replace (Ls * Lr - Msr * Msr) with 0 by lra.
    rewrite py_div_zero.
    destruct (py_div Jm Kf) as [[]|c]; reflexivity.
  - intros self; unfold __init__.
    destruct (py_div Jm Kf) as [e|c]; [discriminate|].
    destruct (py_div 1 (Ls * Lr - Msr * Msr)) as [e|i] eqn:Hi;
      [discriminate|].
    apply py_div_inr in Hi; destruct Hi as (Hdet & ->).
    cbn [bind ret]; intros H; injection H as <-.
    destruct (Rlt_dec (1 / 2000) 1e-5) as [Hlt|Hge];
      cbn [par st tr reset_initial_conditions with_state
           h hp ls lr msr idt];
      split_all; try reflexivity; try assumption; lra.
Qed.

Lemma construction_rejects_bad_configuration_witness :
  __init__ 0.39 1.41 1 1 1 0.04 0.01 1 1 0 1 = inl ZeroDivisionError
  /\ (h reference = 1e-5 /\ 0 < h reference /\ h reference <= hp reference
      /\ ls reference * lr reference - msr reference * msr reference <> 0
      /\ idt reference
         = 1 / (ls reference * lr reference
                - msr reference * msr reference)).
Proof.
  split.
  - apply (construction_rejects_bad_configuration
             0.39 1.41 1 1 1 0.04 0.01 1 1 0 1); lra.
  - apply (construction_rejects_bad_configuration
             0.39 1.41 0.094 0.094 0.091 0.04 0.01 1 1 0 1).
    exact init_reference.
Defined.

(** ** Zero-input rest *)

Lemma zero_loss :
  sqrt (0 ^ 2 + 0 ^ 2 + 0 ^ 2) ^ 2 = 0.
Proof. rewrite corrente_eficaz_sqr; ring. Qed.

(** One pass of the loop body on a state at rest, with the source at zero
    amplitude and the load torque still at zero after the pass. *)
Lemma step_at_rest (self : Motor) :
  Vs self = 0 -> at_rest self -> cl (step self) = 0 ->
  at_rest (step self) /\ temp (step self) = temp self.
Proof.
  intros HV (H1 & H2 & H3 & H4 & H5 & H6 & H7 & H8 & H9 & H10 & H11) Hcl.
  rewrite step_cl in Hcl.
  unfold at_rest; step_cases self;
    rewrite ?Hcl, ?HV, ?H1, ?H2, ?H3, ?H4, ?H5, ?H6, ?H7, ?H8, ?H9, ?H10;
    (assert (Hz : forall x y : R, 0 / x * y = 0)
       by (intros; unfold Rdiv; ring));
    repeat match goal with
           | |- context [0 * ?x] => rewrite (Rmult_0_l x)
           end;
    unfold Rdiv;
    repeat (rewrite ?Rmult_0_l, ?Rmult_0_r, ?Rplus_0_l, ?Rplus_0_r,
              ?Rminus_0_r, ?Ropp_0, ?Rminus_diag);
    rewrite ?zero_loss;
    repeat (rewrite ?Rmult_0_l, ?Rmult_0_r, ?Rplus_0_l, ?Rplus_0_r,
              ?Rminus_0_r, ?Ropp_0, ?Rminus_diag);
    split_all; reflexivity.
Qed.

Lemma iter_step_t (n : nat) (self : Motor) :
  t (iter step n self) = t self + INR n * h self.
Proof.
  induction n as [|n IH].
  - cbn [iter INR]; ring.
  - rewrite iter_S.
    destruct (step_frame (iter step n self)) as (Hp & _ & _ & _ & _ & Ht).
    destruct (iter_step_frame n self) as (Hpn & _).
    rewrite Ht, IH, Hpn, S_INR; ring.
Qed.

(** Before the threshold the load torque of a run stays at zero. *)
Lemma cl_zero_before_threshold (n : nat) (self : Motor) :
  cl self = 0 -> 0 <= h self ->
  t self + INR n * h self < tmax self / 2 ->
  forall k : nat, (k <= n)%nat -> cl (iter step k self) = 0.
Proof.
  intros Hcl Hh Hlt k Hk.
  destruct k as [|k]; [exact Hcl|].
  rewrite (run_torque self k Hcl Hh).
  destruct (Rge_dec _ _) as [Hge|_]; [exfalso | reflexivity].
  destruct (iter_step_frame (S k) self) as (Hp & _).
  rewrite iter_step_t, Hp in Hge.
  assert (INR (S k) <= INR n) by (apply le_INR; exact Hk).
  nra.
Qed.

(** C4. With the source amplitude at zero and the load torque at zero up to
    pass [n], a state at rest (zero fluxes, currents, speed and torque) is
    still at rest after [n] passes of the loop body, and its temperature is
    the one it started with.  [lso] and [jm] are divisors of the pass. *)
Theorem zero_input_rest :
  forall (self : Motor) (n : nat),
    Vs self = 0 -> lso self <> 0 -> jm self <> 0 ->
    at_rest self ->
    (forall k : nat, (k <= n)%nat -> cl (iter step k self) = 0) ->
    at_rest (iter step n self)
    /\ temp (iter step n self) = temp self
    /\ cl (iter step n self) = 0.
Proof.
  intros self n HV _ _ Hrest; induction n as [|n IH]; intros Hcl.
  - split_all; [exact Hrest | reflexivity | apply (Hcl O); lia].
  - destruct IH as (IHrest & IHtemp & _);
      [intros k Hk; apply Hcl; lia|].
    destruct (iter_step_frame n self) as (_ & _ & _ & HVn).
    assert (Hlast : cl (iter step (S n) self) = 0) by (apply Hcl; lia).
    rewrite iter_S in Hlast |- *.
    rewrite <- HVn in HV.
    destruct (step_at_rest (iter step n self) HV IHrest Hlast) as (Hr & Ht).
    split_all; [exact Hr | rewrite Ht; exact IHtemp | exact Hlast].
Qed.

(** Once the threshold [tmax / 2] is reached the load torque is 40 and the
    speed leaves zero: the rest state lasts as long as the load torque is
    zero, not longer. *)
Lemma rest_ends_at_threshold (self : Motor) :
  Vs self = 0 -> at_rest self -> t self + h self >= tmax self / 2 ->
  cl (step self) = 40 /\ wm (step self) = (0 - 40) * h self / jm self.
Proof.
  intros HV (H1 & H2 & H3 & H4 & H5 & H6 & H7 & H8 & H9 & H10 & H11) Hge.
  split.
  - rewrite step_cl; destruct (Rge_dec _ _); [reflexivity | contradiction].
  - step_cases self;
      (destruct (Rge_dec (t self + h self) (tmax self / 2));
       [|contradiction]);
      rewrite ?HV, ?H1, ?H2, ?H3, ?H4, ?H5, ?H6, ?H7, ?H8, ?H9, ?H10;
      unfold Rdiv;
      repeat (rewrite ?Rmult_0_l, ?Rmult_0_r, ?Rplus_0_l, ?Rplus_0_r,
                ?Rminus_0_r, ?Ropp_0, ?Rminus_diag);
      reflexivity.
Qed.

Lemma unpowered_facts :
  Vs unpowered = 0 /\ lso unpowered <> 0 /\ jm unpowered <> 0
  /\ at_rest unpowered /\ cl unpowered = 0 /\ 0 <= h unpowered
  /\ t unpowered + INR 1000 * h unpowered < tmax unpowered / 2.
Proof.
  unfold at_rest.
  assert (HI : INR 1000 = 1000).
  { change 1000%nat with (Z.to_nat 1000).
    rewrite INR_IZR_INZ, Z2Nat.id by lia; reflexivity. }
  rewrite HI.
  run_all; split_all; try reflexivity; lra.
Qed.

Lemma zero_input_rest_witness :
  (Vs unpowered = 0 /\ lso unpowered <> 0 /\ jm unpowered <> 0
   /\ at_rest unpowered
   /\ forall k : nat, (k <= 1000)%nat -> cl (iter step k unpowered) = 0)
  /\ at_rest (iter step 1000 unpowered)
  /\ temp (iter step 1000 unpowered) = temp unpowered
  /\ cl (iter step 1000 unpowered) = 0.
Proof.
  destruct unpowered_facts as (HV & Hl & Hj & Hr & Hc & Hh & Ht).
  pose proof (cl_zero_before_threshold 1000 unpowered Hc Hh Ht) as Hcl.
  split; [split_all; assumption|].
  exact (zero_input_rest unpowered 1000 HV Hl Hj Hr Hcl).
Defined.

(** ** Output sampling *)

(** The clock after one pass of the loop body. *)
Lemma step_clock (self : Motor) :
  par (step self) = par self
  /\ t (step self) = t self + h self
  /\ tp (step self)
     = (if Rge_dec (t self + h self) (tp self)
        then tp self + hp self else tp self)
  /\ tempo (step self)
     = (if Rge_dec (t self + h self) (tp self)
        then tempo self ++ [t self + h self] else tempo self).
Proof. step_cases self; split_all; reflexivity. Qed.

(** One pass of the loop body is one step of the integer clock. *)
Lemma step_clock_of (self : Motor) (c : IClock) :
  h self = 1e-5 -> hp self = 1 / 2000 ->
  clock_of self c -> clock_of (step self) (iclock_step c).
Proof.
  intros Hh Hhp (Ht & Htp & Htempo).
  destruct (step_clock self) as (Hp & Ht' & Htp' & Htempo').
  unfold clock_of, iclock_step.
  rewrite Hp, Ht', Htp', Htempo', Ht, Htp, Htempo, Hhp, Hh.
  clear Hp Ht' Htp' Htempo'.
  destruct (Z.geb_spec (ticks c + 1) (next c)) as [Hge|Hlt];
    destruct (Rge_dec _ _) as [Hr|Hr]; cbn [ticks next stamps].
  - rewrite map_app; cbn [map]; rewrite !plus_IZR; split_all; try lra.
    do 2 f_equal; lra.
  - exfalso; apply Hr; apply IZR_le in Hge; rewrite plus_IZR in Hge; lra.
  - exfalso; apply IZR_lt in Hlt; rewrite plus_IZR in Hlt; lra.
  - rewrite !plus_IZR; split_all; try reflexivity; lra.
Qed.

Lemma iter_step_clock_of (n : nat) (self : Motor) (c : IClock) :
  h self = 1e-5 -> hp self = 1 / 2000 ->
  clock_of self c -> clock_of (iter step n self) (iter iclock_step n c).
Proof.
  intros Hh Hhp Hc; induction n as [|n IH]; [exact Hc|].
  rewrite !iter_S.
  destruct (iter_step_frame n self) as (Hp & _).
  apply step_clock_of; [rewrite Hp; exact Hh | rewrite Hp; exact Hhp | exact IH].
Qed.

(** [simulate] is [k] passes of the loop body, when the guard holds before
    each of them and fails after the last. *)
Lemma simulate_S (fuel : nat) (self : Motor) :
  simulate (S fuel) self
  = if Rlt_dec (t self) (tmax self) then simulate fuel (step self)
    else Some self.
Proof. reflexivity. Qed.

Lemma simulate_stop (fuel : nat) (self : Motor) :
  ~ t self < tmax self -> simulate fuel self = Some self.
Proof.
  intros Hn; destruct fuel; cbn [simulate];
    destruct (Rlt_dec _ _); try contradiction; reflexivity.
Qed.

Lemma simulate_iter (k : nat) :
  forall (fuel : nat) (self : Motor),
    (forall i : nat, (i < k)%nat ->
       t (iter step i self) < tmax (iter step i self)) ->
    ~ t (iter step k self) < tmax (iter step k self) ->
    (k <= fuel)%nat ->
    simulate fuel self = Some (iter step k self).
Proof.
  induction k as [|k IH]; intros fuel self Hrun Hstop Hfuel.
  - apply simulate_stop; exact Hstop.
  - destruct fuel as [|fuel]; [lia|].
    rewrite simulate_S.
    destruct (Rlt_dec _ _) as [_|Hn];
      [|exfalso; apply Hn; apply (Hrun O); lia].
    rewrite iter_shift in Hstop |- *.
    apply IH; [|exact Hstop | lia].
    intros i Hi; rewrite <- iter_shift; apply Hrun; lia.
Qed.

Lemma INR_passes : INR passes = 100000.
Proof.
  unfold passes; rewrite INR_IZR_INZ, Z2Nat.id by lia; reflexivity.
Qed.

(** The integer clock after the passes of the default run: 2001 stamps,
    increasing, 49 to 51 steps apart. *)
Lemma iclock_run :
  let c := iter iclock_step passes iclock_reset in
  ticks c = 100000%Z
  /\ length (stamps c) = 2001%nat
  /\ consecutiveb Z.ltb (stamps c) = true
  /\ consecutiveb (fun a b => (Z.abs (b - a - 50) <=? 1)%Z) (stamps c) = true.
Proof. vm_compute; repeat split. Qed.

Lemma consecutiveb_map {A B : Type} (p : A -> A -> bool)
    (P : B -> B -> Prop) (f : A -> B) (l : list A) :
  (forall a b : A, p a b = true -> P (f a) (f b)) ->
  consecutiveb p l = true -> consecutive P (map f l).
Proof.
  intros Hp; induction l as [|a [|b r] IH]; intros H;
    [exact I | exact I |].
  cbn [consecutiveb] in H; apply andb_prop in H; destruct H as (Hab & Hr).
  cbn [map consecutive]; split; [apply Hp; exact Hab | apply IH; exact Hr].
Qed.

Lemma consecutive_sorted (l : list R) :
  consecutive Rlt l -> StronglySorted Rlt l.
Proof.
  intros H; apply Sorted_StronglySorted; [exact Rlt_trans|].
  induction l as [|a [|b r] IH]; [constructor | repeat constructor |].
  destruct H as (Hab & Hr).
  constructor; [apply IH; exact Hr | constructor; exact Hab].
Qed.

(** C8. On an instance as the constructor leaves it ([h = 1e-5],
    [tmax = 1], [hp = tmax / 2000], clock at zero, empty trace), [simulate]
    returns after 100000 passes of the loop body, and the recorded times
    are strictly increasing, consecutive ones lie within [h] of [hp] apart,
    and there are 2001 of them, one more than [tmax / hp = 2000]. *)
Theorem sampling_is_monotonic :
  forall (Rs Rr Ls Lr Msr Jm Kf Q1 Q2 Q3 mu : R) (self : Motor),
    __init__ Rs Rr Ls Lr Msr Jm Kf Q1 Q2 Q3 mu = inr self ->
    exists final : Motor,
      (forall fuel : nat,
         (passes <= fuel)%nat -> simulate fuel self = Some final)
      /\ final = iter step passes self
      /\ StronglySorted Rlt (tempo final)
      /\ consecutive (fun a b : R => Rabs (b - a - hp self) <= h self)
           (tempo final)
      /\ length (tempo final) = 2001%nat
      /\ tmax self / hp self = 2000.
Proof.
  intros Rs Rr Ls Lr Msr Jm Kf Q1 Q2 Q3 mu self Hinit.
  assert (Hself : h self = 1e-5 /\ tmax self = 1 /\ hp self = 1 / 2000
                  /\ t self = 0 /\ tp self = 0 /\ tempo self = []).
  { unfold __init__ in Hinit.
    destruct (py_div Jm Kf) as [e|c]; [discriminate|].
    destruct (py_div 1 (Ls * Lr - Msr * Msr)) as [e|i]; [discriminate|].
    cbn [bind ret] in Hinit; injection Hinit as <-.
    destruct (Rlt_dec (1 / 2000) 1e-5) as [Hlt|Hge];
      [exfalso; lra | repeat split]. }
  destruct Hself as (Hh & Htmax & Hhp & Ht & Htp & Htempo).
  assert (Hc0 : clock_of self iclock_reset).
  { unfold clock_of; cbn [iclock_reset ticks next stamps map].
    rewrite Ht, Htp, Htempo; split_all; try reflexivity; lra. }
  pose proof (iter_step_clock_of passes self iclock_reset Hh Hhp Hc0)
    as (_ & _ & Hstamps).
  destruct iclock_run as (_ & Hlen & Hinc & Hgap).
  destruct (iter_step_frame passes self) as (Hp & _).
  rewrite Hp in Hstamps.
  exists (iter step passes self); split_all.
  - intros fuel Hfuel; apply simulate_iter; [| |exact Hfuel].
    + intros i Hi.
      destruct (iter_step_frame i self) as (Hpi & _).
      rewrite iter_step_t, Hpi, Ht, Hh, Htmax.
      apply lt_INR in Hi; rewrite INR_passes in Hi; lra.
    + rewrite iter_step_t, Hp, Ht, Hh, Htmax, INR_passes; lra.
  - reflexivity.
  - rewrite Hstamps; apply consecutive_sorted.
    apply (consecutiveb_map Z.ltb); [|exact Hinc].
    intros a b Hab; apply Z.ltb_lt, IZR_lt in Hab; rewrite Hh; lra.
  - rewrite Hstamps.
    apply (consecutiveb_map (fun a b => (Z.abs (b - a - 50) <=? 1)%Z));
      [|exact Hgap].
    intros a b Hab; apply Z.leb_le in Hab.
    assert (Hlo : (-1 <= b - a - 50)%Z) by lia.
    assert (Hhi : (b - a - 50 <= 1)%Z) by lia.
    apply IZR_le in Hlo, Hhi; rewrite !minus_IZR in Hlo, Hhi.
    rewrite Hh, Hhp; apply Rabs_le; lra.
  - rewrite Hstamps, length_map; exact Hlen.
  - rewrite Htmax, Hhp; lra.
Qed.

Lemma sampling_is_monotonic_witness :
  __init__ 0.39 1.41 0.094 0.094 0.091 0.04 0.01 1 1 0 1 = inr reference
  /\ exists final : Motor,
       (forall fuel : nat,
          (passes <= fuel)%nat -> simulate fuel reference = Some final)
       /\ final = iter step passes reference
       /\ StronglySorted Rlt (tempo final)
       /\ consecutive
            (fun a b : R => Rabs (b - a - hp reference) <= h reference)
            (tempo final)
       /\ length (tempo final) = 2001%nat
       /\ tmax reference / hp reference = 2000.
Proof.
  split; [exact init_reference|].
  exact (sampling_is_monotonic
           0.39 1.41 0.094 0.094 0.091 0.04 0.01 1 1 0 1
           reference init_reference).
Defined.

(** * Further properties of the simulator *)

(** ** The dq0 transform is orthogonal *)

Lemma dq0_power (k r a b c : R) :
  k * k = 2 / 3 -> r * r = 3 -> 0 < r ->
  (k * (a - b / 2 - c / 2)) ^ 2 + (k * (b * r / 2 - c * r / 2)) ^ 2
  + ((a + b + c) / r) ^ 2
  = a ^ 2 + b ^ 2 + c ^ 2.
Proof.
  intros Hk Hr Hpos.
  assert (Hinv : / r * / r = / 3).
  { rewrite <- Rinv_mult, Hr; reflexivity. }
  replace ((k * (a - b / 2 - c / 2)) ^ 2
           + (k * (b * r / 2 - c * r / 2)) ^ 2 + ((a + b + c) / r) ^ 2)
    with (k * k * (a - b / 2 - c / 2) ^ 2
          + k * k * (r * r) * ((b - c) / 2) ^ 2
          + (a + b + c) ^ 2 * (/ r * / r))
    by (field; lra).
  rewrite Hk, Hr, Hinv; field.
Qed.

(** X1. [direct_voltage_and_quadrature] preserves the sum of squares: the
    dq0 components of a triple carry the same power as its three phases. *)
Theorem dq0_preserves_power :
  forall (self : Motor) (a b c : R),
    numpy_constants self ->
    let '(xd, xq, xo) := direct_voltage_and_quadrature self a b c in
    xd ^ 2 + xq ^ 2 + xo ^ 2 = a ^ 2 + b ^ 2 + c ^ 2.
Proof.
  intros self a b c (_ & Hk & Hr).
  unfold direct_voltage_and_quadrature; rewrite Hk, Hr.
  apply dq0_power; [exact rq23_sqr | exact rq3_sqr | exact rq3_pos].
Qed.

Lemma dq0_preserves_power_witness :
  numpy_constants reference
  /\ (let '(xd, xq, xo) := direct_voltage_and_quadrature reference 1 2 3 in
      xd ^ 2 + xq ^ 2 + xo ^ 2 = 1 ^ 2 + 2 ^ 2 + 3 ^ 2).
Proof.
  split; [exact reference_numpy_constants|].
  exact (dq0_preserves_power reference 1 2 3 reference_numpy_constants).
Defined.

Lemma dq0_forward (k r d q o : R) :
  k * k = 2 / 3 -> r * r = 3 -> 0 < r ->
  let x1 := k * d + o / r in
  let x2 := k * (- d / 2 + r * q / 2) + o / r in
  let x3 := k * (- d / 2 - r * q / 2) + o / r in
  k * (x1 - x2 / 2 - x3 / 2) = d
  /\ k * (x2 * r / 2 - x3 * r / 2) = q
  /\ (x1 + x2 + x3) / r = o.
Proof.
  intros Hk Hr Hpos x1 x2 x3; subst x1 x2 x3.
  assert (Hinv : / r * / r = / 3).
  { rewrite <- Rinv_mult, Hr; reflexivity. }
  split_all.
  - replace (k * (k * d + o / r - (k * (- d / 2 + r * q / 2) + o / r) / 2
                  - (k * (- d / 2 - r * q / 2) + o / r) / 2))
      with (k * k * (3 / 2 * d)) by (field; lra).
    rewrite Hk; field.
  - replace (k * ((k * (- d / 2 + r * q / 2) + o / r) * r / 2
                  - (k * (- d / 2 - r * q / 2) + o / r) * r / 2))
      with (k * k * (r * r) * (q / 2)) by (field; lra).
    rewrite Hk, Hr; field.
  - replace ((k * d + o / r + (k * (- d / 2 + r * q / 2) + o / r)
              + (k * (- d / 2 - r * q / 2) + o / r)) / r)
      with (3 * o * (/ r * / r)) by (field; lra).
    rewrite Hinv; field.
Qed.

(** X2. The other direction of the round trip: the phase currents and phase
    fluxes that [currents_and_fluxes_phases] reports transform back, under
    [direct_voltage_and_quadrature], to the dq0 currents and fluxes of the
    state. *)
Theorem dq0_of_phases :
  forall (self : Motor) (fso : R),
    numpy_constants self ->
    let '(is1, is2, is3, fs1, fs2, fs3) :=
      currents_and_fluxes_phases self fso in
    direct_voltage_and_quadrature self is1 is2 is3
    = (isd self, isq self, iso self)
    /\ direct_voltage_and_quadrature self fs1 fs2 fs3
       = (fsd self, fsq self, fso).
Proof.
  intros self fso (_ & Hk & Hr).
  unfold currents_and_fluxes_phases, direct_voltage_and_quadrature.
  rewrite Hk, Hr.
  destruct (dq0_forward (sqrt (2 / 3)) (sqrt 3) (isd self) (isq self)
              (iso self) rq23_sqr rq3_sqr rq3_pos) as (H1 & H2 & H3).
  destruct (dq0_forward (sqrt (2 / 3)) (sqrt 3) (fsd self) (fsq self)
              fso rq23_sqr rq3_sqr rq3_pos) as (G1 & G2 & G3).
  cbv zeta in H1, H2, H3, G1, G2, G3.
  rewrite H1, H2, H3, G1, G2, G3; split; reflexivity.
Qed.

Lemma dq0_of_phases_witness :
  numpy_constants reference
  /\ (let '(is1, is2, is3, fs1, fs2, fs3) :=
        currents_and_fluxes_phases reference 1 in
      direct_voltage_and_quadrature reference is1 is2 is3
      = (isd reference, isq reference, iso reference)
      /\ direct_voltage_and_quadrature reference fs1 fs2 fs3
         = (fsd reference, fsq reference, 1)).
Proof.
  split; [exact reference_numpy_constants|].
  exact (dq0_of_phases reference 1 reference_numpy_constants).
Defined.

(** ** The source is balanced *)

Lemma pi23_eq : 2 * PI / 3 = 2 * (PI / 3).
Proof. field. Qed.

Lemma balanced_voltages (V x : R) :
  V * cos x + V * cos (x - 2 * PI / 3) + V * cos (x + 2 * PI / 3) = 0.
Proof.
  rewrite pi23_eq, cos_minus, cos_plus, cos_2PI3; field.
Qed.

Lemma source_voltage_eq (self : Motor) :
  source_voltage self
  = (let x := wrap_angle (tete self + h self * ws self) in
     ((Vs self * cos x, Vs self * cos (x - pi23 self),
       Vs self * cos (x + pi23 self)),
      set_tete x self)).
Proof.
  destruct self as [P S T]; destruct S.
  unfold wrap_angle; run; destruct (Rge_dec _ _); reflexivity.
Qed.

(** X3. The three voltages that [source_voltage] returns sum to zero at
    every angle, so the zero-sequence voltage that
    [direct_voltage_and_quadrature] makes of them is zero. *)
Theorem source_is_balanced :
  forall self : Motor,
    numpy_constants self ->
    let '(vs1, vs2, vs3) := fst (source_voltage self) in
    vs1 + vs2 + vs3 = 0
    /\ snd (direct_voltage_and_quadrature self vs1 vs2 vs3) = 0.
Proof.
  intros self (Hp & _ & Hr).
  rewrite source_voltage_eq; cbv zeta; cbn [fst].
  unfold direct_voltage_and_quadrature; cbn [snd].
  rewrite Hp, balanced_voltages; split; [reflexivity|].
  unfold Rdiv; ring.
Qed.

Lemma source_is_balanced_witness :
  numpy_constants reference
  /\ (let '(vs1, vs2, vs3) := fst (source_voltage reference) in
      vs1 + vs2 + vs3 = 0
      /\ snd (direct_voltage_and_quadrature reference vs1 vs2 vs3) = 0).
Proof.
  split; [exact reference_numpy_constants|].
  exact (source_is_balanced reference reference_numpy_constants).
Defined.

Lemma balanced_direct (V x : R) :
  V * cos x - V * cos (x - 2 * PI / 3) / 2 - V * cos (x + 2 * PI / 3) / 2
  = 3 / 2 * (V * cos x).
Proof.
  rewrite pi23_eq, cos_minus, cos_plus, cos_2PI3; field.
Qed.

Lemma balanced_quadrature (V x : R) :
  V * cos (x - 2 * PI / 3) * sqrt 3 / 2
  - V * cos (x + 2 * PI / 3) * sqrt 3 / 2
  = 3 / 2 * (V * sin x).
Proof.
  rewrite pi23_eq, cos_minus, cos_plus, sin_2PI3.
  replace (V * (cos x * cos (2 * (PI / 3)) + sin x * (sqrt 3 / 2))
           * sqrt 3 / 2
           - V * (cos x * cos (2 * (PI / 3)) - sin x * (sqrt 3 / 2))
             * sqrt 3 / 2)
    with (V * sin x * (sqrt 3 * sqrt 3) / 2) by field.
  rewrite rq3_sqr; field.
Qed.

(** X4. In dq coordinates the source is a vector of constant length: the
    direct and quadrature voltages are [3/2 * rq23 * Vs] times the cosine
    and the sine of the electrical angle, and their squares sum to
    [3/2 * Vs^2]. *)
Theorem source_dq_amplitude :
  forall self : Motor,
    numpy_constants self ->
    let '(vs1, vs2, vs3) := fst (source_voltage self) in
    let x := tete (snd (source_voltage self)) in
    let '(vsd, vsq, vso) := direct_voltage_and_quadrature self vs1 vs2 vs3 in
    vsd = 3 / 2 * rq23 self * Vs self * cos x
    /\ vsq = 3 / 2 * rq23 self * Vs self * sin x
    /\ vsd ^ 2 + vsq ^ 2 = 3 / 2 * Vs self ^ 2.
Proof.
  intros self (Hp & Hk & Hr).
  rewrite source_voltage_eq; cbv zeta; cbn [fst snd].
  replace (tete (set_tete (wrap_angle (tete self + h self * ws self)) self))
    with (wrap_angle (tete self + h self * ws self))
    by (destruct self as [P S T]; destruct S; reflexivity).
  unfold direct_voltage_and_quadrature.
  set (x := wrap_angle (tete self + h self * ws self)).
  rewrite Hp, Hr, balanced_direct, balanced_quadrature.
  split_all; try ring.
  replace ((rq23 self * (3 / 2 * (Vs self * cos x))) ^ 2
           + (rq23 self * (3 / 2 * (Vs self * sin x))) ^ 2)
    with (rq23 self * rq23 self * (9 / 4) * Vs self ^ 2
          * ((sin x) ^ 2 + (cos x) ^ 2)) by field.
  rewrite Hk, rq23_sqr.
  replace ((sin x) ^ 2 + (cos x) ^ 2) with 1
    by (rewrite <- !Rsqr_pow2; symmetry; apply sin2_cos2).
  field.
Qed.

Lemma source_dq_amplitude_witness :
  numpy_constants reference
  /\ (let '(vs1, vs2, vs3) := fst (source_voltage reference) in
      let x := tete (snd (source_voltage reference)) in
      let '(vsd, vsq, vso) :=
        direct_voltage_and_quadrature reference vs1 vs2 vs3 in
      vsd = 3 / 2 * rq23 reference * Vs reference * cos x
      /\ vsq = 3 / 2 * rq23 reference * Vs reference * sin x
      /\ vsd ^ 2 + vsq ^ 2 = 3 / 2 * Vs reference ^ 2).
Proof.
  split; [exact reference_numpy_constants|].
  exact (source_dq_amplitude reference reference_numpy_constants).
Defined.

(** ** The electrical angle *)

Lemma step_tete (self : Motor) :
  tete (step self) = wrap_angle (tete self + h self * ws self).
Proof. step_cases self; reflexivity. Qed.

Lemma iter_step_ws (n : nat) (self : Motor) :
  ws (iter step n self) = ws self.
Proof.
  induction n as [|n IH]; [reflexivity|].
  rewrite iter_S.
  destruct (step_frame (iter step n self)) as (_ & _ & _ & _ & Hw & _).
  rewrite Hw; exact IH.
Qed.

Lemma PI_gt_3 : 3 < PI.
Proof. pose proof PI2_3_2; lra. Qed.

(** X5. The single wrap of [source_voltage] keeps the electrical angle in
    [0, 2 pi) along a run, as long as the angle advances by less than a
    full turn per pass ([0 <= h * ws < 2 pi]). *)
Theorem angle_stays_wrapped :
  forall (self : Motor) (n : nat),
    0 <= h self * ws self < 2 * PI ->
    0 <= tete self < 2 * PI ->
    0 <= tete (iter step n self) < 2 * PI.
Proof.
  intros self n Hadv Hinit; induction n as [|n IH]; [exact Hinit|].
  rewrite iter_S, step_tete.
  destruct (step_frame (iter step n self)) as (Hp & _ & _ & _ & Hws & _).
  assert (Hpar : par (iter step n self) = par self)
    by apply iter_step_frame.
  rewrite Hpar, iter_step_ws; unfold wrap_angle.
  destruct (Rge_dec _ _); lra.
Qed.

Lemma angle_stays_wrapped_witness :
  (0 <= h reference * ws reference < 2 * PI
   /\ 0 <= tete reference < 2 * PI)
  /\ 0 <= tete (iter step 1000 reference) < 2 * PI.
Proof.
  assert (H1 : 0 <= h reference * ws reference < 2 * PI).
  { pose proof PI_gt_3; run_all; lra. }
  assert (H2 : 0 <= tete reference < 2 * PI).
  { pose proof PI_gt_3; run_all; lra. }
  split; [split; assumption|].
  exact (angle_stays_wrapped reference 1000 H1 H2).
Defined.

(** Past a full turn per pass one subtraction is not enough: the angle
    leaves [0, 2 pi). *)
Lemma angle_escapes (self : Motor) :
  0 <= tete self -> 4 * PI <= h self * ws self ->
  2 * PI <= tete (step self).
Proof.
  intros Ht Hadv; rewrite step_tete; unfold wrap_angle.
  pose proof PI_RGT_0.
  destruct (Rge_dec _ _); lra.
Qed.

(** ** The zero-sequence current *)

Lemma phase_currents_sum (self : Motor) (fso : R) :
  let '(is1, is2, is3) := phase_currents self fso in
  is1 + is2 + is3 = 3 * (iso self / rq3 self).
Proof.
  unfold phase_currents, currents_and_fluxes_phases, fst3, snd3, thd3.
  set (z := iso self / rq3 self); field.
Qed.

Lemma step_iso (self : Motor) :
  numpy_constants self ->
  iso (step self) = iso self + (0 - rs self * iso self) / lso self * h self.
Proof.
  intros (Hp & _ & _).
  step_cases self; rewrite Hp, balanced_voltages;
    unfold Rdiv; rewrite Rmult_0_l; reflexivity.
Qed.

Lemma iter_numpy_constants (n : nat) (self : Motor) :
  numpy_constants self -> numpy_constants (iter step n self).
Proof.
  unfold numpy_constants.
  destruct (iter_step_frame n self) as (Hp & _); rewrite Hp; auto.
Qed.

(** X6. Under the balanced source the zero-sequence current obeys
    [iso' = (1 - rs * h / lso) * iso] at every pass; starting from zero (as
    after [reset_initial_conditions]) it stays zero along the run, and the
    three phase currents then sum to zero. *)
Theorem zero_sequence_current_decouples :
  forall (self : Motor) (n : nat),
    numpy_constants self -> lso self <> 0 ->
    iso (step self) = (1 - rs self * h self / lso self) * iso self
    /\ (iso self = 0 ->
        iso (iter step n self) = 0
        /\ forall fso : R,
             let '(is1, is2, is3) :=
               phase_currents (iter step n self) fso in
             is1 + is2 + is3 = 0).
Proof.
  intros self n Hnp Hlso; split.
  - rewrite (step_iso self Hnp); field; exact Hlso.
  - intros Hiso.
    assert (Hn : iso (iter step n self) = 0).
    { induction n as [|n IH]; [exact Hiso|].
      rewrite iter_S, step_iso by (apply iter_numpy_constants; exact Hnp).
      rewrite IH; unfold Rdiv; ring. }
    split; [exact Hn|].
    intros fso.
    pose proof (phase_currents_sum (iter step n self) fso) as Hsum.
    destruct (phase_currents (iter step n self) fso) as [[is1 is2] is3].
    rewrite Hsum, Hn; unfold Rdiv; ring.
Qed.

Lemma zero_sequence_current_decouples_witness :
  (numpy_constants reference /\ lso reference <> 0 /\ iso reference = 0)
  /\ iso (step reference)
     = (1 - rs reference * h reference / lso reference) * iso reference
  /\ iso (iter step 1000 reference) = 0
  /\ (forall fso : R,
        let '(is1, is2, is3) :=
          phase_currents (iter step 1000 reference) fso in
        is1 + is2 + is3 = 0).
Proof.
  assert (Hl : lso reference <> 0) by (run_all; lra).
  assert (Hi : iso reference = 0) by reflexivity.
  split; [split_all; [exact reference_numpy_constants | exact Hl | exact Hi]|].
  destruct (zero_sequence_current_decouples reference 1000
              reference_numpy_constants Hl) as (Hrec & Hrun).
  split; [exact Hrec | exact (Hrun Hi)].
Defined.

(** ** The mechanical equation *)

(** X7. One Euler step of the speed moves its distance to the equilibrium
    speed [(ce - cl) / kf] by the factor [1 - kf * h / jm]; with a non-zero
    step the speed is left unchanged exactly at the equilibrium, where the
    mechanical torque [ce - cl] equals the friction torque [kf * wm]. *)
Theorem speed_relaxes_to_equilibrium :
  forall self : Motor,
    kf self <> 0 -> jm self <> 0 ->
    mechanical_speed self - wm_equilibrium self
    = (1 - kf self * h self / jm self) * (wm self - wm_equilibrium self)
    /\ (h self <> 0 ->
        (mechanical_speed self = wm self
         <-> mechanical_torque self = kf self * wm self)).
Proof.
  intros self Hkf Hjm; unfold mechanical_speed, mechanical_torque,
    wm_equilibrium; split.
  - field; split; assumption.
  - intros Hh; split; intros H.
    + assert (Hz : (ce self - cl self - wm self * kf self)
                   * h self / jm self = 0) by lra.
      unfold Rdiv in Hz.
      apply Rmult_integral in Hz; destruct Hz as [Hz|Hz];
        [|exfalso; revert Hz; apply Rinv_neq_0_compat; exact Hjm].
      apply Rmult_integral in Hz; destruct Hz as [Hz|Hz];
        [lra | contradiction].
    + rewrite H; unfold Rdiv.
      replace (kf self * wm self - wm self * kf self) with 0 by ring.
      rewrite !Rmult_0_l; ring.
Qed.

Lemma speed_relaxes_to_equilibrium_witness :
  (kf reference <> 0 /\ jm reference <> 0 /\ h reference <> 0)
  /\ mechanical_speed reference - wm_equilibrium reference
     = (1 - kf reference * h reference / jm reference)
       * (wm reference - wm_equilibrium reference)
  /\ (mechanical_speed reference = wm reference
      <-> mechanical_torque reference = kf reference * wm reference).
Proof.
  assert (Hk : kf reference <> 0) by (run_all; lra).
  assert (Hj : jm reference <> 0) by (run_all; lra).
  assert (Hh : h reference <> 0) by (run_all; lra).
  split; [split_all; assumption|].
  destruct (speed_relaxes_to_equilibrium reference Hk Hj) as (H1 & H2).
  split; [exact H1 | exact (H2 Hh)].
Defined.

(** ** The output trace *)

Ltac trace_cases self :=
  rewrite ?step_closed_form;
  unfold step_closed, all_channels, written_channels;
  destruct (Rge_dec (t self + h self) (tp self));
  cbn [par st tr all_channels written_channels app
       tempo corrented correnteq corrente1 corrente2 corrente3
       tensao1 tensao2 tensao3 tensaosd tensaosq fluxord fluxorq
       fluxos1 fluxos2 fluxos3 fluxosd fluxosq fluxos
       conjugado velocidade frequencia conjcarga correnteo
       torque_mecanico temperatura].

Lemma extends_refl {A : Type} (l : list A) : extends l l.
Proof. exists []; symmetry; apply app_nil_r. Qed.

Lemma extends_snoc {A : Type} (l : list A) (x : A) : extends l (l ++ [x]).
Proof. exists [x]; reflexivity. Qed.

Lemma extends_trans {A : Type} (l1 l2 l3 : list A) :
  extends l1 l2 -> extends l2 l3 -> extends l1 l3.
Proof.
  intros (m1 & ->) (m2 & ->); exists (m1 ++ m2); symmetry; apply app_assoc.
Qed.

Lemma Forall2_extends_trans {A : Type} (a b c : list (list A)) :
  Forall2 extends a b -> Forall2 extends b c -> Forall2 extends a c.
Proof.
  intros Hab; revert c; induction Hab as [|x y a b Hxy Hab IH];
    intros c Hbc; inversion Hbc; subst; constructor.
  - eapply extends_trans; eassumption.
  - apply IH; assumption.
Qed.

Lemma step_extends (self : Motor) :
  Forall2 extends (all_channels self) (all_channels (step self)).
Proof.
  trace_cases self;
    repeat (constructor;
            try solve [apply extends_refl | apply extends_snoc]).
Qed.

(** X8. The trace is append-only: after any number of passes of the loop
    body every one of the 26 output lists is the list before with samples
    appended, also when [reset_initial_conditions] is called in between,
    which clears no list: a second run after a reset records behind the
    samples of the first. *)
Theorem trace_is_append_only :
  forall (self : Motor) (n : nat),
    Forall2 extends (all_channels self) (all_channels (iter step n self))
    /\ tr (reset_initial_conditions self) = tr self
    /\ Forall2 extends (all_channels self)
         (all_channels (iter step n (reset_initial_conditions self))).
Proof.
  assert (Hrun : forall (s : Motor) (n : nat),
            Forall2 extends (all_channels s) (all_channels (iter step n s))).
  { intros s n; induction n as [|n IH].
    - cbn [iter]; unfold all_channels, written_channels; cbn [app];
        repeat (constructor; try apply extends_refl).
    - rewrite iter_S.
      eapply Forall2_extends_trans; [exact IH | apply step_extends]. }
  intros self n; split_all.
  - apply Hrun.
  - reflexivity.
  - exact (Hrun (reset_initial_conditions self) n).
Qed.

Lemma step_aligned (self : Motor) :
  Forall (fun c : list R => length c = length (tempo self))
    (written_channels self) ->
  Forall (fun c : list R => length c = length (tempo (step self)))
    (written_channels (step self))
  /\ tensaosd (step self) = tensaosd self
  /\ tensaosq (step self) = tensaosq self.
Proof.
  unfold written_channels at 1; intros H.
  unfold written_channels.
  repeat (apply Forall_cons_iff in H; destruct H as [? H]).
  trace_cases self; (split; [|split; reflexivity]);
    repeat (constructor;
            try solve [assumption
                      | rewrite !length_app; cbn [length]; congruence]).
Qed.

(** X9. Every sample is written to all 24 recorded lists at once: lists
    that have one length keep one length after any number of passes, and
    the lists [tensaosd] and [tensaosq] are never written (the dq voltages
    go to [tensao2] and [tensao3]). *)
Theorem channels_stay_aligned :
  forall (self : Motor) (n : nat),
    Forall (fun c : list R => length c = length (tempo self))
      (written_channels self) ->
    Forall (fun c : list R => length c = length (tempo (iter step n self)))
      (written_channels (iter step n self))
    /\ tensaosd (iter step n self) = tensaosd self
    /\ tensaosq (iter step n self) = tensaosq self.
Proof.
  intros self n H; induction n as [|n (IH & IHd & IHq)].
  - split_all; [exact H | reflexivity | reflexivity].
  - rewrite iter_S.
    destruct (step_aligned (iter step n self) IH) as (Ha & Hd & Hq).
    split_all; [exact Ha | rewrite Hd; exact IHd | rewrite Hq; exact IHq].
Qed.

Lemma reference_aligned :
  Forall (fun c : list R => length c = length (tempo reference))
    (written_channels reference).
Proof. unfold written_channels; repeat constructor. Qed.

Lemma channels_stay_aligned_witness :
  Forall (fun c : list R => length c = length (tempo reference))
    (written_channels reference)
  /\ Forall
       (fun c : list R => length c = length (tempo (iter step 1000 reference)))
       (written_channels (iter step 1000 reference))
  /\ tensaosd (iter step 1000 reference) = tensaosd reference
  /\ tensaosq (iter step 1000 reference) = tensaosq reference.
Proof.
  split; [exact reference_aligned|].
  exact (channels_stay_aligned reference 1000 reference_aligned).
Defined.

(** X10. The next sampling time advances by [hp] once per recorded sample
    and never otherwise: after any number of passes [tp] is its initial
    value plus [hp] times the number of samples recorded since. *)
Theorem tp_counts_samples :
  forall (self : Motor) (n : nat),
    tp (iter step n self)
    = tp self
      + (INR (length (tempo (iter step n self))) - INR (length (tempo self)))
        * hp self.
Proof.
  intros self n; induction n as [|n IH]; [cbn [iter]; ring|].
  rewrite iter_S.
  destruct (step_clock (iter step n self)) as (_ & _ & Htp & Htempo).
  destruct (iter_step_frame n self) as (Hp & _).
  rewrite Htp, Htempo, Hp; clear Htp Htempo.
  destruct (Rge_dec _ _).
  - rewrite length_app, Nat.add_comm; cbn [length Nat.add].
    rewrite S_INR, IH; ring.
  - exact IH.
Qed.




(** ** Termination of [simulate] *)

Lemma step_guard (self : Motor) :
  h (step self) = h self /\ tmax (step self) = tmax self
  /\ t (step self) = t self + h self.
Proof.
  destruct (step_frame self) as (Hp & _ & _ & _ & _ & Ht).
  rewrite Hp; auto.
Qed.






(** X13. With a step that is zero or negative and the clock before [tmax]
    the loop of [simulate] never ends: no amount of fuel gives a result. *)
Theorem simulate_diverges :
  forall (fuel : nat) (self : Motor),
    h self <= 0 -> t self < tmax self -> simulate fuel self = None.
Proof.
  induction fuel as [|fuel IH]; intros self Hh Hlt.
  - cbn [simulate]; destruct (Rlt_dec _ _); [reflexivity | contradiction].
  - rewrite simulate_S.
    destruct (Rlt_dec _ _); [|contradiction].
    destruct (step_guard self) as (Hh' & Htm' & Ht').
    apply IH; [rewrite Hh'; exact Hh | rewrite Htm', Ht'; lra].
Qed.

Lemma simulate_diverges_witness :
  (h stalled <= 0 /\ t stalled < tmax stalled)
  /\ simulate 1000 stalled = None.
Proof.
  assert (H1 : h stalled <= 0) by (run_all; lra).
  assert (H2 : t stalled < tmax stalled) by (run_all; lra).
  split; [split; assumption|].
  exact (simulate_diverges 1000 stalled H1 H2).
Defined.

Lemma simulate_some (fuel : nat) :
  forall self final : Motor,
    simulate fuel self = Some final -> ~ t final < tmax final.
Proof.
  induction fuel as [|fuel IH]; intros self final.
  - cbn [simulate]; destruct (Rlt_dec _ _) as [|Hn];
      [discriminate | intros H; injection H as <-; exact Hn].
  - rewrite simulate_S; destruct (Rlt_dec _ _) as [|Hn];
      [apply IH | intros H; injection H as <-; exact Hn].
Qed.

(** X14. A finished run is not continued: on the state that [simulate]
    returned, [simulate] returns the same state again, whatever the fuel;
    nothing is stepped or recorded until the clock is reset. *)
Theorem simulate_is_idempotent :
  forall (fuel fuel' : nat) (self final : Motor),
    simulate fuel self = Some final ->
    simulate fuel' final = Some final /\ tmax final <= t final.
Proof.
  intros fuel fuel' self final H.
  apply simulate_some in H.
  split; [apply simulate_stop; exact H | lra].
Qed.

Lemma simulate_is_idempotent_witness :
  simulate 0 (set_t 1 reference) = Some (set_t 1 reference)
  /\ simulate 5 (set_t 1 reference) = Some (set_t 1 reference)
  /\ tmax (set_t 1 reference) <= t (set_t 1 reference).
Proof.
  assert (H : simulate 0 (set_t 1 reference) = Some (set_t 1 reference)).
  { apply simulate_stop; run_all; lra. }
  split; [exact H|].
  exact (simulate_is_idempotent 0 5 (set_t 1 reference)
           (set_t 1 reference) H).
Defined.

(** * Properties of class [Controle] *)

(** ** The linear model *)

(** X15. [state_space_representation] fails, with [ZeroDivisionError],
    exactly when the moment of inertia copied from the motor is zero;
    otherwise it returns the companion form of the denominator of
    [transfer_function] divided by [jm]. *)
Theorem state_space_fails_iff_no_inertia :
  forall self : Controle.Controle,
    (Controle.jm self = 0 <->
     Controle.state_space_representation self = inl ZeroDivisionError)
    /\ (Controle.jm self <> 0 ->
        Controle.state_space_representation self
        = inr ([[0; 1];
                [- (Controle.rs self + Controle.ls self) / Controle.jm self;
                 - (2 * Controle.kf self) / Controle.jm self]],
               [[0];
                [Controle.msr self * Controle.p self / Controle.jm self]],
               [[1; 0]], [[0]])).
Proof.
  intros self.
  assert (Hok : Controle.jm self <> 0 ->
                Controle.state_space_representation self
                = inr ([[0; 1];
                        [- (Controle.rs self + Controle.ls self)
                         / Controle.jm self;
                         - (2 * Controle.kf self) / Controle.jm self]],
                       [[0];
                        [Controle.msr self * Controle.p self
                         / Controle.jm self]],
                       [[1; 0]], [[0]])).
  { intros Hj; unfold Controle.state_space_representation,
      Controle.transfer_function; cbn [nth].
    rewrite !(py_div_nonzero _ _ Hj); reflexivity. }
  split; [split|exact Hok].
  - intros Hj; unfold Controle.state_space_representation,
      Controle.transfer_function; cbn [nth].
    rewrite Hj, py_div_zero; reflexivity.
  - intros Herr.
    destruct (Req_dec_T (Controle.jm self) 0) as [Hj|Hj]; [exact Hj|].
    rewrite (Hok Hj) in Herr; discriminate Herr.
Qed.

(** X16. The state-space matrices realise the transfer function: wherever
    the denominator polynomial does not vanish, [C (sI - A)^-1 B + D]
    equals numerator over denominator of [transfer_function]. *)
Theorem state_space_realises_transfer_function :
  forall (self : Controle.Controle) (A B C D : list (list R)) (s : R),
    Controle.state_space_representation self = inr (A, B, C, D) ->
    polyval (snd (Controle.transfer_function self)) s <> 0 ->
    ss_transfer A B C D s
    = polyval (fst (Controle.transfer_function self)) s
      / polyval (snd (Controle.transfer_function self)) s.
Proof.
  intros self A B C D s Hss Hden.
  destruct (state_space_fails_iff_no_inertia self) as ((Hz & _) & Hok).
  destruct (Req_dec_T (Controle.jm self) 0) as [Hj|Hj].
  - rewrite (Hz Hj) in Hss; discriminate Hss.
  - rewrite (Hok Hj) in Hss; injection Hss as <- <- <- <-.
    unfold Controle.transfer_function, polyval in *;
      cbn [fst snd fold_left] in *.
    unfold ss_transfer, entry; cbn [nth].
    field; split; [|exact Hj].
    intros Hdet; apply Hden; etransitivity; [|exact Hdet]; ring.
Qed.

Lemma controle_reference_inertia :
  Controle.jm (Controle.__init__ reference) <> 0.
Proof. run_all; lra. Qed.

Lemma state_space_reference :
  Controle.state_space_representation (Controle.__init__ reference)
  = inr ([[0; 1]; [- (0.39 + 0.094) / 0.04; - (2 * 0.01) / 0.04]],
         [[0]; [0.091 * 2 / 0.04]], [[1; 0]], [[0]]).
Proof.
  destruct (state_space_fails_iff_no_inertia (Controle.__init__ reference))
    as (_ & Hok).
  rewrite (Hok controle_reference_inertia); reflexivity.
Qed.

(** The matrices of the doctest: [-12.1], [-0.5] and [4.55]. *)
Lemma state_space_doctest :
  - (0.39 + 0.094) / 0.04 = -12.1 /\ - (2 * 0.01) / 0.04 = -0.5
  /\ 0.091 * 2 / 0.04 = 4.55.
Proof. split_all; lra. Qed.

Lemma state_space_realises_transfer_function_witness :
  (Controle.state_space_representation (Controle.__init__ reference)
   = inr ([[0; 1]; [- (0.39 + 0.094) / 0.04; - (2 * 0.01) / 0.04]],
          [[0]; [0.091 * 2 / 0.04]], [[1; 0]], [[0]])
   /\ polyval (snd (Controle.transfer_function
                      (Controle.__init__ reference))) 0 <> 0)
  /\ ss_transfer [[0; 1]; [- (0.39 + 0.094) / 0.04; - (2 * 0.01) / 0.04]]
       [[0]; [0.091 * 2 / 0.04]] [[1; 0]] [[0]] 0
     = polyval (fst (Controle.transfer_function
                       (Controle.__init__ reference))) 0
       / polyval (snd (Controle.transfer_function
                         (Controle.__init__ reference))) 0.
Proof.
  assert (Hden : polyval (snd (Controle.transfer_function
                                 (Controle.__init__ reference))) 0 <> 0).
  { run_all; lra. }
  split; [split; [exact state_space_reference | exact Hden]|].
  exact (state_space_realises_transfer_function
           (Controle.__init__ reference) _ _ _ _ 0
           state_space_reference Hden).
Defined.

(** X17. The linear model is a snapshot of the motor's parameters: a
    [Controle] built on the motor after any number of passes of the
    simulation has the transfer function, the state-space matrices, the
    switch flags and the source amplitude of one built before. *)
Theorem linear_model_ignores_simulation :
  forall (motor : Motor) (n : nat),
    let before := Controle.__init__ motor in
    let after := Controle.__init__ (iter step n motor) in
    Controle.transfer_function after = Controle.transfer_function before
    /\ Controle.state_space_representation after
       = Controle.state_space_representation before
    /\ Controle.chaves after = Controle.chaves before
    /\ Controle.Vs after = Controle.Vs before.
Proof.
  intros motor n before after; subst before after.
  destruct (iter_step_frame n motor) as (Hp & _ & _ & HV).
  unfold Controle.state_space_representation, Controle.transfer_function,
    Controle.chaves, Controle.__init__;
    cbn [Controle.msr Controle.p Controle.jm Controle.kf Controle.rs
         Controle.ls Controle.q1 Controle.q2 Controle.q3 Controle.Vs].
  rewrite Hp, HV; split_all; reflexivity.
Qed.

(** ** Inverter switches *)




(** ** Pulse-width modulation *)

Lemma map2_map {A B C D : Type} (f : B -> C -> D) (g : A -> B) (k : A -> C)
    (l : list A) :
  Controle.map2 f (map g l) (map k l) = map (fun x => f (g x) (k x)) l.
Proof.
  unfold Controle.map2; induction l as [|a l IH]; [reflexivity|].
  cbn [map combine fst snd]; rewrite IH; reflexivity.
Qed.

Lemma linspace_length (start stop : R) (num : nat) :
  length (Controle.linspace start stop num) = num.
Proof.
  unfold Controle.linspace.
  set (y := map (fun v => v + start) _).
  assert (Hy : length y = num).
  { unfold y; destruct (0 <? num - 1)%nat;
      rewrite !length_map, length_seq; reflexivity. }
  destruct (Nat.ltb_spec 1 num) as [Hn|Hn]; [|exact Hy].
  rewrite length_app, removelast_firstn_len, length_firstn, Hy.
  cbn [length]; lia.
Qed.

Lemma inr_inv {E A : Type} (a a' : A) : @inr E A a = inr a' -> a = a'.
Proof. intros H; injection H as ->; reflexivity. Qed.

Lemma pair_inv {A B : Type} (a a' : A) (b b' : B) :
  (a, b) = (a', b') -> a = a' /\ b = b'.
Proof. intros H; injection H as -> ->; split; reflexivity. Qed.

Lemma some_inv {A : Type} (a a' : A) : Some a = Some a' -> a = a'.
Proof. intros H; injection H as ->; reflexivity. Qed.

(** What a successful call of [controle_pwm] has computed, every array
    written as one map over the time grid. *)
Ltac pwm_arrays H :=
  unfold Controle.controle_pwm in H;
  destruct (py_div 1 (Controle.f_onda_p _)) as [e|T] eqn:HT;
    [discriminate H|];
  cbv beta iota zeta delta [bind ret] in H;
  apply inr_inv, pair_inv in H; destruct H as (_ & <-);
  cbn [Controle.set_pwm Controle.pwm];
  intros HP; apply some_inv in HP; rewrite <- HP; clear HP;
  cbn [Controle.t_pwm Controle.v1 Controle.v2 Controle.v3
       Controle.v10 Controle.v20 Controle.v30];
  unfold Controle.maximum_reduce, Controle.minimum_reduce;
  cbn [fold_left];
  repeat (rewrite ?map2_map, ?map_map);
  apply py_div_inr in HT; destruct HT as (Hf & _).

(** X19. The zero-sequence injection of [controle_pwm] leaves the
    line-to-line voltages alone: sample by sample the differences of the
    modulated voltages [v10], [v20], [v30] are the differences of the
    input voltages [v1], [v2], [v3], for any modulation bias. *)
Theorem injection_preserves_line_voltages :
  forall (self after : Controle.Controle) (plotted : list R * list R)
         (P : Controle.PWM),
    Controle.controle_pwm self = inr (plotted, after) ->
    Controle.pwm after = Some P ->
    Controle.map2 Rminus (Controle.v10 P) (Controle.v20 P)
    = Controle.map2 Rminus (Controle.v1 P) (Controle.v2 P)
    /\ Controle.map2 Rminus (Controle.v20 P) (Controle.v30 P)
       = Controle.map2 Rminus (Controle.v2 P) (Controle.v3 P)
    /\ Controle.map2 Rminus (Controle.v30 P) (Controle.v10 P)
       = Controle.map2 Rminus (Controle.v3 P) (Controle.v1 P)
    /\ length (Controle.v10 P) = 1000%nat.
Proof.
  intros self after plotted P H; destruct plotted as [onda sig].
  pwm_arrays H.
  split_all; try (apply map_ext; intros x; ring).
  rewrite length_map; apply linspace_length.
Qed.

Lemma Rmax_shift (a b d : R) : Rmax (a + d) (b + d) = Rmax a b + d.
Proof. unfold Rmax; repeat destruct (Rle_dec _ _); lra. Qed.

Lemma Rmin_shift (a b d : R) : Rmin (a + d) (b + d) = Rmin a b + d.
Proof. unfold Rmin; repeat destruct (Rle_dec _ _); lra. Qed.

(** X20. With the modulation bias at 0 the injection clamps the lowest
    phase to the negative rail: at every sample the smallest of the three
    modulated voltages is exactly [- Vs / 2]; with the bias at 1 the largest
    is exactly [Vs / 2]. *)
Theorem injection_clamps_one_phase :
  forall (self after : Controle.Controle) (plotted : list R * list R)
         (P : Controle.PWM),
    Controle.controle_pwm self = inr (plotted, after) ->
    Controle.pwm after = Some P ->
    (Controle.valor_mu self = 0 ->
     Controle.minimum_reduce (Controle.v10 P) (Controle.v20 P)
       (Controle.v30 P)
     = map (fun _ => - Controle.Vs self / 2) (Controle.t_pwm P))
    /\ (Controle.valor_mu self = 1 ->
        Controle.maximum_reduce (Controle.v10 P) (Controle.v20 P)
          (Controle.v30 P)
        = map (fun _ => Controle.Vs self / 2) (Controle.t_pwm P)).
Proof.
  intros self after plotted P H; destruct plotted as [onda sig].
  pwm_arrays H.
  split; intros Hmu; rewrite Hmu; apply map_ext; intros x.
  - rewrite !Rmin_shift; lra.
  - rewrite !Rmax_shift; lra.
Qed.

Lemma py_mod_range (a b : R) :
  0 < b -> 0 <= Controle.py_mod a b < b.
Proof.
  intros Hb; unfold Controle.py_mod.
  destruct (base_Int_part (a / b)) as (Hlo & Hhi).
  assert (Ha : a = a / b * b) by (field; lra).
  set (q := a / b) in *; set (z := IZR (Int_part q)) in *.
  split; nra.
Qed.

(** X21. For a positive carrier frequency the triangular carrier that
    [controle_pwm] compares with stays between 0 and 1 at every sample, and
    the PWM signal takes no value other than 0 and [Vs]. *)
Theorem carrier_is_bounded :
  forall (self after : Controle.Controle) (onda_port PWM_signal : list R),
    0 < Controle.f_onda_p self ->
    Controle.controle_pwm self = inr ((onda_port, PWM_signal), after) ->
    Forall (fun y => 0 <= y <= 1) onda_port
    /\ Forall (fun y => y = 0 \/ y = Controle.Vs self) PWM_signal
    /\ length onda_port = 1000%nat /\ length PWM_signal = 1000%nat.
Proof.
  intros self after onda sig Hpos H.
  unfold Controle.controle_pwm in H.
  destruct (py_div 1 (Controle.f_onda_p self)) as [e|T] eqn:HT;
    [discriminate H|].
  cbv beta iota zeta delta [bind ret] in H.
  apply inr_inv, pair_inv in H; destruct H as (H & _).
  apply pair_inv in H; destruct H as (<- & <-).
  apply py_div_inr in HT; destruct HT as (Hf & ->).
  unfold Controle.maximum_reduce, Controle.minimum_reduce; cbn [fold_left].
  repeat (rewrite ?map2_map, ?map_map).
  split_all.
  - apply Forall_map, Forall_forall; intros x _.
    assert (HT : 0 < 1 / Controle.f_onda_p self)
      by (apply Rdiv_lt_0_compat; lra).
    destruct (py_mod_range x (1 / Controle.f_onda_p self) HT) as (Hlo & Hhi).
    set (r := Controle.py_mod x (1 / Controle.f_onda_p self)) in *.
    assert (Hy : 0 <= r * Controle.f_onda_p self < 1).
    { split; [apply Rmult_le_pos; lra|].
      apply (Rmult_lt_compat_r (Controle.f_onda_p self)) in Hhi;
        [|exact Hpos].
      replace (1 / Controle.f_onda_p self * Controle.f_onda_p self)
        with 1 in Hhi by (field; exact Hf).
      exact Hhi. }
    assert (Habs : Rabs (r * Controle.f_onda_p self - 0.5) <= 0.5)
      by (apply Rabs_le; lra).
    pose proof (Rabs_pos (r * Controle.f_onda_p self - 0.5)).
    lra.
  - apply Forall_map, Forall_forall; intros x _.
    destruct (Controle.Rgeb _ _); [right | left]; reflexivity.
  - rewrite length_map; apply linspace_length.
  - rewrite length_map; apply linspace_length.
Qed.

Lemma controle_pwm_ok (self : Controle.Controle) :
  Controle.f_onda_p self <> 0 ->
  exists (plotted : list R * list R) (P : Controle.PWM),
    Controle.controle_pwm self = inr (plotted, Controle.set_pwm P self).
Proof.
  intros Hf; unfold Controle.controle_pwm.
  rewrite (py_div_nonzero _ _ Hf); cbn [bind ret].
  eexists; eexists; reflexivity.
Qed.

Lemma linspace_one (start stop : R) :
  Controle.linspace start stop 1 = [0 * (stop - start) + start].
Proof. reflexivity. Qed.

(** X22. [exec_pwm] never runs the modulation with the bias at 1: its
    sweep [np.linspace(0, 10e-1, 1)] holds the single value 0, so an
    instance whose bias is 1 is modulated with bias 0 and keeps it, and an
    instance with any other bias is modulated once with its own. *)
Theorem exec_pwm_never_uses_bias_one :
  forall self after : Controle.Controle,
    Controle.exec_pwm self = inr after ->
    Controle.valor_mu after <> 1
    /\ (Controle.valor_mu self = 1 -> Controle.valor_mu after = 0)
    /\ (Controle.valor_mu self <> 1 ->
        Controle.valor_mu after = Controle.valor_mu self)
    /\ Controle.mu_values after = Some [0 * (1 - 0) + 0]
    /\ exists P : Controle.PWM, Controle.pwm after = Some P.
Proof.
  intros self after; unfold Controle.exec_pwm.
  cbn [Controle.set_mu_values Controle.valor_mu Controle.mu_values].
  rewrite linspace_one; unfold Controle.Rneb.
  destruct (Req_dec_T (Controle.valor_mu self) 1) as [Hmu|Hmu];
    cbn [fold_left bind ret].
  - unfold Controle.controle_pwm;
      cbn [Controle.set_valor_mu Controle.set_mu_values
           Controle.f_onda_p Controle.Vs Controle.valor_mu].
    destruct (py_div 1 (Controle.f_onda_p self)) as [e|T];
      [discriminate|].
    cbv beta iota zeta delta [bind ret snd]; intros H.
    apply inr_inv in H; rewrite <- H; clear H.
    cbn [Controle.set_pwm Controle.set_valor_mu Controle.set_mu_values
         Controle.valor_mu Controle.mu_values Controle.pwm].
    split_all; try lra; try reflexivity; try (intros; lra).
    eexists; reflexivity.
  - unfold Controle.controle_pwm;
      cbn [Controle.set_mu_values Controle.f_onda_p Controle.Vs
           Controle.valor_mu].
    destruct (py_div 1 (Controle.f_onda_p self)) as [e|T];
      [discriminate|].
    cbv beta iota zeta delta [bind ret snd]; intros H.
    apply inr_inv in H; rewrite <- H; clear H.
    cbn [Controle.set_pwm Controle.valor_mu Controle.mu_values
         Controle.pwm].
    split_all; try assumption; try reflexivity;
      try (intros; contradiction); try (intros; reflexivity).
    eexists; reflexivity.
Qed.

(** *** The examples' instance *)

Lemma controle_reference_carrier :
  0 < Controle.f_onda_p (Controle.__init__ reference).
Proof. run_all; lra. Qed.

Lemma controle_pwm_reference :
  exists (plotted : list R * list R) (P : Controle.PWM),
    Controle.controle_pwm (Controle.__init__ reference)
    = inr (plotted, Controle.set_pwm P (Controle.__init__ reference)).
Proof.
  apply controle_pwm_ok, Rgt_not_eq, controle_reference_carrier.
Qed.

Lemma exec_pwm_ok (self : Controle.Controle) :
  Controle.f_onda_p self <> 0 ->
  exists after : Controle.Controle, Controle.exec_pwm self = inr after.
Proof.
  intros Hf; unfold Controle.exec_pwm.
  cbn [Controle.set_mu_values Controle.valor_mu Controle.mu_values].
  rewrite linspace_one; unfold Controle.Rneb.
  destruct (Req_dec_T (Controle.valor_mu self) 1);
    cbn [fold_left bind ret];
    unfold Controle.controle_pwm;
    cbn [Controle.set_valor_mu Controle.set_mu_values Controle.f_onda_p];
    rewrite (py_div_nonzero _ _ Hf);
    cbv beta iota zeta delta [bind ret snd];
    eexists; reflexivity.
Qed.

Lemma injection_preserves_line_voltages_witness :
  exists (plotted : list R * list R) (after : Controle.Controle)
         (P : Controle.PWM),
    (Controle.controle_pwm (Controle.__init__ reference)
     = inr (plotted, after)
     /\ Controle.pwm after = Some P)
    /\ Controle.map2 Rminus (Controle.v10 P) (Controle.v20 P)
       = Controle.map2 Rminus (Controle.v1 P) (Controle.v2 P)
    /\ Controle.map2 Rminus (Controle.v20 P) (Controle.v30 P)
       = Controle.map2 Rminus (Controle.v2 P) (Controle.v3 P)
    /\ Controle.map2 Rminus (Controle.v30 P) (Controle.v10 P)
       = Controle.map2 Rminus (Controle.v3 P) (Controle.v1 P)
    /\ length (Controle.v10 P) = 1000%nat.
Proof.
  destruct controle_pwm_reference as (plotted & P & H).
  exists plotted, (Controle.set_pwm P (Controle.__init__ reference)), P.
  split; [split; [exact H | reflexivity]|].
  exact (injection_preserves_line_voltages _ _ plotted P H eq_refl).
Defined.

Lemma injection_clamps_one_phase_witness :
  exists (plotted : list R * list R) (after : Controle.Controle)
         (P : Controle.PWM),
    (Controle.controle_pwm
       (Controle.set_valor_mu 0 (Controle.__init__ reference))
     = inr (plotted, after)
     /\ Controle.pwm after = Some P)
    /\ Controle.minimum_reduce (Controle.v10 P) (Controle.v20 P)
         (Controle.v30 P)
       = map (fun _ => - Controle.Vs (Controle.__init__ reference) / 2)
           (Controle.t_pwm P).
Proof.
  destruct (controle_pwm_ok
              (Controle.set_valor_mu 0 (Controle.__init__ reference)))
    as (plotted & P & H).
  { apply Rgt_not_eq, controle_reference_carrier. }
  exists plotted,
    (Controle.set_pwm P
       (Controle.set_valor_mu 0 (Controle.__init__ reference))), P.
  split; [split; [exact H | reflexivity]|].
  destruct (injection_clamps_one_phase _ _ plotted P H eq_refl)
    as (Hlow & _).
  exact (Hlow eq_refl).
Defined.

Lemma carrier_is_bounded_witness :
  exists (after : Controle.Controle) (onda_port PWM_signal : list R),
    (0 < Controle.f_onda_p (Controle.__init__ reference)
     /\ Controle.controle_pwm (Controle.__init__ reference)
        = inr ((onda_port, PWM_signal), after))
    /\ Forall (fun y => 0 <= y <= 1) onda_port
    /\ Forall
         (fun y => y = 0 \/ y = Controle.Vs (Controle.__init__ reference))
         PWM_signal
    /\ length onda_port = 1000%nat /\ length PWM_signal = 1000%nat.
Proof.
  destruct controle_pwm_reference as ([onda sig] & P & H).
  exists (Controle.set_pwm P (Controle.__init__ reference)), onda, sig.
  split; [split; [exact controle_reference_carrier | exact H]|].
  exact (carrier_is_bounded _ _ onda sig controle_reference_carrier H).
Defined.

Lemma exec_pwm_never_uses_bias_one_witness :
  exists after : Controle.Controle,
    Controle.exec_pwm (Controle.__init__ reference) = inr after
    /\ Controle.valor_mu (Controle.__init__ reference) = 1
    /\ Controle.valor_mu after <> 1
    /\ Controle.valor_mu after = 0.
Proof.
  destruct (exec_pwm_ok (Controle.__init__ reference)) as (after & H).
  { apply Rgt_not_eq, controle_reference_carrier. }
  exists after.
  destruct (exec_pwm_never_uses_bias_one _ after H) as (H1 & H2 & _).
  split_all; [exact H | reflexivity | exact H1 | exact (H2 eq_refl)].
Defined.

(** * The trace does not feed back *)

Lemma step_state_only (a b : Motor) :
  par a = par b -> st a = st b ->
  par (step a) = par (step b) /\ st (step a) = st (step b).
Proof.
  destruct a as [P S T], b as [P' S' T']; cbn [par st]; intros <- <-.
  rewrite !step_closed_form; unfold step_closed;
    cbn [par st tr cl wm t tp j ce ws Vsm Vs tete fsd fsq frd frq
         isd isq ird irq iso rg temp m C].
  destruct (Rge_dec _ _); cbn [par st]; split; reflexivity.
Qed.

(** X23. No pass of the loop body reads the output lists: two instances
    with the same parameters and the same state attributes go through the
    same states whatever their traces hold, so a run after
    [reset_initial_conditions] repeats the states of the first run. *)
Theorem runs_are_reproducible :
  forall (a b : Motor) (n : nat),
    par a = par b ->
    (st a = st b -> st (iter step n a) = st (iter step n b))
    /\ st (iter step n (reset_initial_conditions a))
       = st (iter step n (reset_initial_conditions b))
    /\ st (iter step n (reset_initial_conditions (iter step n a)))
       = st (iter step n (reset_initial_conditions a)).
Proof.
  assert (Hgen : forall (x y : Motor) (n : nat),
            par x = par y -> st x = st y ->
            par (iter step n x) = par (iter step n y)
            /\ st (iter step n x) = st (iter step n y)).
  { intros x y n Hp Hs; induction n as [|n (IHp & IHs)];
      [split; assumption|].
    rewrite !iter_S; apply step_state_only; assumption. }
  intros a b n Hp; split_all.
  - intros Hs; apply Hgen; assumption.
  - apply Hgen; [exact Hp|].
    unfold reset_initial_conditions, with_state; reflexivity.
  - apply Hgen; [|unfold reset_initial_conditions, with_state; reflexivity].
    unfold reset_initial_conditions, with_state; cbn [par].
    apply iter_step_frame.
Qed.

Lemma runs_are_reproducible_witness :
  par (set_temp 80 reference) = par reference
  /\ st (iter step 1000 (reset_initial_conditions (set_temp 80 reference)))
     = st (iter step 1000 (reset_initial_conditions reference)).
Proof.
  assert (Hp : par (set_temp 80 reference) = par reference) by reflexivity.
  split; [exact Hp|].
  destruct (runs_are_reproducible (set_temp 80 reference) reference 1000 Hp)
    as (_ & H & _).
  exact H.
Defined.
